(** * promproxy: the querier adapter and the logging decorator

    A shallow embedding of [pkg/proxyquerier/querier.go] and
    [pkg/promclient/debug.go].  Go methods become functions in a small
    state monad over a [World] that holds what the code can observe or
    change from outside its arguments: the wall clock, the logrus level and
    the emitted log entries, and the trace of calls that reached the remote
    client. *)

From stdpp Require Import base option list strings gmap.
From Stdlib Require Import ZArith Lia Ascii.

Local Open Scope string_scope.
Local Open Scope list_scope.
Local Open Scope Z_scope.

(** ** Values imported from Go packages *)

(** [context.Context]: an opaque handle that is only passed along. *)
Record Context := { ctx_id : nat }.

(** [time.Time] as seconds and nanoseconds since the Unix epoch, with
    [0 <= nsec < 10^9] for every value built by [time_Unix]. *)
Record time_Time := { sec : Z; nsec : Z }.

(** [time.Duration] is an int64 count of nanoseconds. *)
Definition Duration := Z.
Definition minDuration : Duration := - 2 ^ 63.
Definition maxDuration : Duration := 2 ^ 63 - 1.

(** [time.Unix(sec, nsec)]: nanoseconds outside [0, 10^9) are carried into
    the seconds.  Go's [/] truncates towards zero ([Z.quot]). *)
Definition time_Unix (s n : Z) : time_Time :=
  if (n <? 0) || (1000000000 <=? n) then
    let q := n ÷ 1000000000 in
    let s := s + q in
    let n := n - q * 1000000000 in
    if n <? 0 then {| sec := s - 1; nsec := n + 1000000000 |}
    else {| sec := s; nsec := n |}
  else {| sec := s; nsec := n |}.

(** [t.Sub(u)]: the difference, saturated to the int64 range. *)
Definition time_Sub (t u : time_Time) : Duration :=
  let d := (sec t - sec u) * 1000000000 + (nsec t - nsec u) in
  if d <? minDuration then minDuration
  else if maxDuration <? d then maxDuration
  else d.

(** [timestamp.Time(ts)] of prometheus/pkg/timestamp: a millisecond
    timestamp as a [time.Time].  [ts%1000] keeps the sign of [ts]
    ([Z.rem]), and for an int64 [ts] no intermediate result overflows. *)
Definition timestamp_Time (ts : Z) : time_Time :=
  time_Unix (ts ÷ 1000) (Z.rem ts 1000 * 1000000).

(** [timestamp.FromTime(t)]: back to milliseconds. *)
Definition timestamp_FromTime (t : time_Time) : Z :=
  sec t * 1000 + nsec t ÷ 1000000.

(** Go's [error] values, told apart by what [errors.Cause] can see of
    them: an error without a [Cause()] method ([fundamental], as
    [errors.New] builds it), a wrapper whose [Cause()] gives a non-nil
    error ([withMessage] and [withStack] of github.com/pkg/errors, and any
    other such type), and an error of any type whose [Cause()] gives nil
    ([nilCause]).  A nil [error] is [None] in [option error]. *)
Inductive error :=
| fundamental (msg : string)
| withMessage (cause : error) (msg : string)
| withStack (cause : error)
| nilCause (msg : string).

(** [errors.New(msg)]. *)
Definition errors_New (msg : string) : error := fundamental msg.

(** [errors.Wrap(err, msg)] annotates with a message and a stack. *)
Definition errors_Wrap (err : error) (msg : string) : error :=
  withStack (withMessage err msg).

(** [err.Error()]: the message; a [withMessage] puts its own before the
    cause's, and a [withStack] adds nothing to it. *)
Fixpoint error_Error (e : error) : string :=
  match e with
  | fundamental msg => msg
  | withMessage c msg => msg +:+ ": " +:+ error_Error c
  | withStack c => error_Error c
  | nilCause msg => msg
  end.

(** The loop of [errors.Cause] from a non-nil error: an error without a
    [Cause()] method ends it and is the result; otherwise it goes on with
    what [Cause()] gives, and ends with nil when that is nil. *)
Fixpoint root_cause (e : error) : option error :=
  match e with
  | fundamental _ => Some e
  | withMessage c _ => root_cause c
  | withStack c => root_cause c
  | nilCause _ => None
  end.

(** [errors.Cause(err)]: nil stays nil. *)
Definition errors_Cause (err : option error) : option error :=
  match err with
  | Some e => root_cause e
  | None => None
  end.

(** [labels.MatchType] is an int with four named constants; any other int
    is still a value of the type. *)
Inductive MatchType :=
| MatchEqual | MatchNotEqual | MatchRegexp | MatchNotRegexp
| MatchOther (code : Z).

(** [labels.Matcher] (the compiled regexp is derived from [Value]). *)
Record Matcher := { m_Type : MatchType; m_Name : string; m_Value : string }.

(** [storage.SelectParams]; times are int64 milliseconds. *)
Record SelectParams := {
  sp_Start : Z;
  sp_End : Z;
  sp_Step : Z;
  sp_Func : string
}.

(** [model.LabelSet] is [map[LabelName]LabelValue]; [model.Metric] is the
    same map under another type name. *)
Abbreviation LabelSet := (gmap string string).
Abbreviation Metric := (gmap string string).

(** [model.Time] is int64 milliseconds.  [model.SampleValue] is a float64
    that this layer only carries around: it is kept as its IEEE-754 bit
    pattern, whose zero value is [0]. *)
Definition model_Time := Z.
Definition SampleValue := Z.

Record Sample := {
  Sample_Metric : Metric;
  Sample_Value : SampleValue;
  Sample_Timestamp : model_Time
}.

Record SamplePair := { Pair_Timestamp : model_Time; Pair_Value : SampleValue }.

Record SampleStream := {
  Stream_Metric : Metric;
  Stream_Values : list SamplePair
}.

(** [model.Vector] is [[]*Sample] and [model.Matrix] is [[]*SampleStream]:
    slices of pointers, where [None] is a nil pointer. *)
Definition Vector := list (option Sample).
Definition Matrix := list (option SampleStream).

(** [model.Value]: the dynamic types behind the interface.  A nil interface
    is [None] in [option Value]. *)
Inductive Value :=
| ValScalar (v : SampleValue) (t : model_Time)
| ValString (s : string) (t : model_Time)
| ValVector (v : Vector)
| ValMatrix (m : Matrix).

(** [api.Warnings] is [[]string]; [storage.Warnings] is [[]error].  A nil
    slice and an empty slice are both [[]]. *)
Definition api_Warnings := list string.
Definition storage_Warnings := list error.

(** [v1.Range]. *)
Record Range := { Range_Start : time_Time; Range_End : time_Time; Range_Step : Duration }.

(** ** logrus *)

Inductive Level :=
| PanicLevel | FatalLevel | ErrorLevel | WarnLevel | InfoLevel | DebugLevel
| TraceLevel.

Definition level_num (l : Level) : Z :=
  match l with
  | PanicLevel => 0 | FatalLevel => 1 | ErrorLevel => 2 | WarnLevel => 3
  | InfoLevel => 4 | DebugLevel => 5 | TraceLevel => 6
  end.

(** What the code stores under a key of [logrus.Fields]. *)
Inductive FieldValue :=
| FString (s : string)
| FStrings (l : list string)
| FTime (t : time_Time)
| FDuration (d : Duration)
| FRange (r : Range)
| FMatchers (ms : list Matcher)
| FSelectParams (p : option SelectParams)
| FValue (v : option Value)
| FLabelSets (l : list LabelSet)
| FError (e : option error).

Abbreviation Fields := (gmap string FieldValue).

Record Entry := { e_level : Level; e_fields : Fields; e_message : string }.

(** ** The world and the monad *)

(** One call as it reaches the remote client, with its arguments. *)
Inductive Call :=
| CallLabelNames (ctx : Context)
| CallLabelValues (ctx : Context) (label : string)
| CallQuery (ctx : Context) (query : string) (ts : time_Time)
| CallQueryRange (ctx : Context) (query : string) (r : Range)
| CallSeries (ctx : Context) (matches : list string) (startTime endTime : time_Time)
| CallGetValue (ctx : Context) (start_ end_ : time_Time) (matchers : list Matcher).

Record World := {
  wall : nat -> time_Time;  (* what successive readings of the clock give *)
  reads : nat;              (* how many readings were taken *)
  level : Level;            (* logrus' global level *)
  entries : list Entry;     (* log entries emitted so far, oldest first *)
  calls : list Call         (* remote calls issued so far, oldest first *)
}.

(** A Go call either returns or panics. *)
Inductive Outcome (A : Type) :=
| Returned (a : A)
| Panicked (reason : string).
Arguments Returned {A} a.
Arguments Panicked {A} reason.

Definition M (A : Type) : Type := World -> Outcome A * World.

Definition ret {A} (a : A) : M A := fun w => (Returned a, w).

Definition bind {A B} (c : M A) (k : A -> M B) : M B :=
  fun w =>
    match c w with
    | (Returned a, w') => k a w'
    | (Panicked r, w') => (Panicked r, w')
    end.

Definition panic {A} (reason : string) : M A := fun w => (Panicked reason, w).

(** [defer d] around [body]: [d] runs when [body] is left, by a return or
    by a panic, and the outcome of [body] stands unless [d] panics. *)
Definition defer {A} (d : M unit) (body : M A) : M A :=
  fun w =>
    match body w with
    | (o, w') =>
        match d w' with
        | (Returned _, w'') => (o, w'')
        | (Panicked r, w'') => (Panicked r, w'')
        end
    end.

Declare Scope go_scope.
Delimit Scope go_scope with go.
Notation "'let*' p ':=' c 'in' k" :=
  (bind c (fun x => match x with p => k end))
  (at level 10, p pattern, c at level 100, k at level 200) : go_scope.
Local Open Scope go_scope.

(** [time.Now()]. *)
Definition time_Now : M time_Time :=
  fun w =>
    (Returned (wall w (reads w)),
     {| wall := wall w; reads := S (reads w); level := level w;
        entries := entries w; calls := calls w |}).

(** [logrus.GetLevel()]. *)
Definition logrus_GetLevel : M Level := fun w => (Returned (level w), w).

Definition emit (e : Entry) : M unit :=
  fun w =>
    (Returned tt,
     {| wall := wall w; reads := reads w; level := level w;
        entries := entries w ++ [e]; calls := calls w |}).

(** [logrus.WithFields(fields).Log(lvl, msg)]: the entry is written when
    the global level is at least [lvl]; the entry owns a copy of the
    fields. *)
Definition logrus_Log (lvl : Level) (fields : Fields) (msg : string) : M unit :=
  let* l := logrus_GetLevel in
  if level_num lvl <=? level_num l
  then emit {| e_level := lvl; e_fields := fields; e_message := msg |}
  else ret tt.

Definition logrus_Debug := logrus_Log DebugLevel.
Definition logrus_Trace := logrus_Log TraceLevel.

Definition record_call (c : Call) : M unit :=
  fun w =>
    (Returned tt,
     {| wall := wall w; reads := reads w; level := level w;
        entries := entries w; calls := calls w ++ [c] |}).

Definition lift {A} (o : Outcome A) : M A := fun w => (o, w).

(** Reading something off the world without changing it. *)
Definition ask {A} (f : World -> A) : M A := fun w => (Returned (f w), w).

(** ** Slices *)

(** [make([]T, n)]: [n] copies of the zero value of [T]. *)
Definition make {B} (n : nat) (zero : B) : list B := replicate n zero.

(** [dst[i] = x]: panics when [i] is out of range. *)
Definition slice_set {B} (dst : list B) (i : nat) (x : B) : Outcome (list B) :=
  if decide (i < length dst)%nat then Returned (<[i := x]> dst)
  else Panicked "index out of range".

(** [for i, x := range src { dst[i] = f(x) }], with [i] counted from the
    given start. *)
Fixpoint range_assign {A B} (f : A -> B) (i : nat) (src : list A)
    (dst : list B) : Outcome (list B) :=
  match src with
  | [] => Returned dst
  | x :: rest =>
      match slice_set dst i (f x) with
      | Returned dst' => range_assign f (S i) rest dst'
      | Panicked r => Panicked r
      end
  end.

(** ** pkg/promutil *)

Module promutil.

Definition quote_char : ascii := Eval cbv in ascii_of_nat 34.
Definition backslash_char : ascii := Eval cbv in ascii_of_nat 92.

(** Modelled from the spec: part of [promutil.MatcherToString], which is
    not among the source files.  Section 4.1: "Embedded quote characters in
    values must be escaped." *)
Fixpoint escape_quotes (s : string) : string :=
  match s with
  | EmptyString => EmptyString
  | String c rest =>
      if decide (c = quote_char)
      then String backslash_char (String quote_char (escape_quotes rest))
      else String c (escape_quotes rest)
  end.

(** Modelled from the spec: part of [promutil.MatcherToString].
    Section 4.1: "Operator mapping: equal, not-equal, regex-equal and
    regex-not-equal" to [=], [!=], [=~] and [!~]. *)
Definition operator (t : MatchType) : option string :=
  match t with
  | MatchEqual => Some "="
  | MatchNotEqual => Some "!="
  | MatchRegexp => Some "=~"
  | MatchNotRegexp => Some "!~"
  | MatchOther _ => None
  end.

(** The error of a matcher whose operator has no selector syntax. *)
Definition TranslationError : error := errors_New "unsupported match type".

Definition matcher_string (m : Matcher) : option string :=
  op ← operator (m_Type m);
  Some (m_Name m +:+ op +:+ String quote_char (escape_quotes (m_Value m))
          +:+ String quote_char EmptyString).

(** Modelled from the spec: [promutil.MatcherToString], which is not among
    the source files.  Section 4.1: one selector string combining all
    matchers, an opening brace, the matchers as name, operator and quoted
    value separated by a comma and a space, and a closing brace; it "fails
    with a translation error if an operator cannot be represented".  The Go
    signature is [(string, error)]. *)
Definition MatcherToString (matchers : list Matcher) : string * option error :=
  match mapM matcher_string matchers with
  | Some parts => ("{" +:+ String.concat ", " parts +:+ "}", None)
  | None => ("", Some TranslationError)
  end.

(** Modelled from the spec: [promutil.WarningsConvert], which is not among
    the source files.  Section 4.4: it "maps each remote warning to the
    engine's warning representation element-wise".  A remote warning is a
    string and an engine warning is an [error], so each string becomes the
    error with that message. *)
Definition WarningsConvert (ws : api_Warnings) : storage_Warnings :=
  errors_New <$> ws.

End promutil.

(** ** pkg/promclient *)

Module promclient.

(** The [API] interface: the six methods that [DebugAPI] overrides, with
    the signatures it gives them. *)
Record API := {
  LabelNames : Context -> M (list string * api_Warnings * option error);
  LabelValues : Context -> string -> M (list string * api_Warnings * option error);
  Query : Context -> string -> time_Time -> M (option Value * api_Warnings * option error);
  QueryRange : Context -> string -> Range -> M (option Value * api_Warnings * option error);
  Series : Context -> list string -> time_Time -> time_Time ->
           M (list LabelSet * api_Warnings * option error);
  GetValue : Context -> time_Time -> time_Time -> list Matcher ->
             M (option Value * api_Warnings * option error)
}.

(** [DebugAPI] embeds an [API] and carries the message of its log lines. *)
Record DebugAPI := { DebugAPI_API : API; PrefixMessage : string }.

Definition DebugAPI_LabelNames (d : DebugAPI) (ctx : Context)
  : M (list string * api_Warnings * option error) :=
  let fields : Fields := list_to_map [("api", FString "LabelNames")] in
  let* _ := logrus_Debug fields (PrefixMessage d) in
  let* s := time_Now in
  let* (v, w, err) := LabelNames (DebugAPI_API d) ctx in
  let* now := time_Now in
  let fields := <["took" := FDuration (time_Sub now s)]> fields in
  let* lvl := logrus_GetLevel in
  let* _ :=
    if level_num DebugLevel <? level_num lvl then
      let fields := <["value" := FStrings v]> fields in
      let fields := <["warnings" := FStrings w]> fields in
      let fields := <["error" := FError err]> fields in
      logrus_Trace fields (PrefixMessage d)
    else logrus_Debug fields (PrefixMessage d) in
  ret (v, w, err).

Definition DebugAPI_LabelValues (d : DebugAPI) (ctx : Context) (label : string)
  : M (list string * api_Warnings * option error) :=
  let fields : Fields :=
    list_to_map [("api", FString "LabelValues"); ("label", FString label)] in
  let* _ := logrus_Debug fields (PrefixMessage d) in
  let* s := time_Now in
  let* (v, w, err) := LabelValues (DebugAPI_API d) ctx label in
  let* now := time_Now in
  let fields := <["took" := FDuration (time_Sub now s)]> fields in
  let* lvl := logrus_GetLevel in
  let* _ :=
    if level_num DebugLevel <? level_num lvl then
      let fields := <["value" := FStrings v]> fields in
      let fields := <["warnings" := FStrings w]> fields in
      let fields := <["error" := FError err]> fields in
      logrus_Trace fields (PrefixMessage d)
    else logrus_Debug fields (PrefixMessage d) in
  ret (v, w, err).

Definition DebugAPI_Query (d : DebugAPI) (ctx : Context) (query : string)
    (ts : time_Time) : M (option Value * api_Warnings * option error) :=
  let fields : Fields :=
    list_to_map [("api", FString "Query"); ("query", FString query);
                 ("ts", FTime ts)] in
  let* _ := logrus_Debug fields (PrefixMessage d) in
  let* s := time_Now in
  let* (v, w, err) := Query (DebugAPI_API d) ctx query ts in
  let* now := time_Now in
  let fields := <["took" := FDuration (time_Sub now s)]> fields in
  let* lvl := logrus_GetLevel in
  let* _ :=
    if level_num DebugLevel <? level_num lvl then
      let fields := <["value" := FValue v]> fields in
      let fields := <["warnings" := FStrings w]> fields in
      let fields := <["error" := FError err]> fields in
      logrus_Trace fields (PrefixMessage d)
    else logrus_Debug fields (PrefixMessage d) in
  ret (v, w, err).

Definition DebugAPI_QueryRange (d : DebugAPI) (ctx : Context) (query : string)
    (r : Range) : M (option Value * api_Warnings * option error) :=
  let fields : Fields :=
    list_to_map [("api", FString "QueryRange"); ("query", FString query);
                 ("r", FRange r)] in
  let* _ := logrus_Debug fields (PrefixMessage d) in
  let* s := time_Now in
  let* (v, w, err) := QueryRange (DebugAPI_API d) ctx query r in
  let* now := time_Now in
  let fields := <["took" := FDuration (time_Sub now s)]> fields in
  let* lvl := logrus_GetLevel in
  let* _ :=
    if level_num DebugLevel <? level_num lvl then
      let fields := <["value" := FValue v]> fields in
      let fields := <["warnings" := FStrings w]> fields in
      let fields := <["error" := FError err]> fields in
      logrus_Trace fields (PrefixMessage d)
    else logrus_Debug fields (PrefixMessage d) in
  ret (v, w, err).

Definition DebugAPI_Series (d : DebugAPI) (ctx : Context) (matches : list string)
    (startTime endTime : time_Time)
  : M (list LabelSet * api_Warnings * option error) :=
  let fields : Fields :=
    list_to_map [("api", FString "Series"); ("matches", FStrings matches);
                 ("startTime", FTime startTime); ("endTime", FTime endTime)] in
  let* _ := logrus_Debug fields (PrefixMessage d) in
  let* s := time_Now in
  let* (v, w, err) := Series (DebugAPI_API d) ctx matches startTime endTime in
  let* now := time_Now in
  let fields := <["took" := FDuration (time_Sub now s)]> fields in
  let* lvl := logrus_GetLevel in
  let* _ :=
    if level_num DebugLevel <? level_num lvl then
      let fields := <["value" := FLabelSets v]> fields in
      let fields := <["warnings" := FStrings w]> fields in
      let fields := <["error" := FError err]> fields in
      logrus_Trace fields (PrefixMessage d)
    else logrus_Debug fields (PrefixMessage d) in
  ret (v, w, err).

Definition DebugAPI_GetValue (d : DebugAPI) (ctx : Context)
    (start_ end_ : time_Time) (matchers : list Matcher)
  : M (option Value * api_Warnings * option error) :=
  let fields : Fields :=
    list_to_map [("api", FString "GetValue"); ("start", FTime start_);
                 ("end", FTime end_); ("matchers", FMatchers matchers)] in
  let* _ := logrus_Debug fields (PrefixMessage d) in
  let* s := time_Now in
  let* (v, w, err) := GetValue (DebugAPI_API d) ctx start_ end_ matchers in
  let* now := time_Now in
  let fields := <["took" := FDuration (time_Sub now s)]> fields in
  let* lvl := logrus_GetLevel in
  let* _ :=
    if level_num DebugLevel <? level_num lvl then
      let fields := <["value" := FValue v]> fields in
      let fields := <["warnings" := FStrings w]> fields in
      let fields := <["error" := FError err]> fields in
      logrus_Trace fields (PrefixMessage d)
    else logrus_Debug fields (PrefixMessage d) in
  ret (v, w, err).

(** A [*DebugAPI] is itself an [API]: its own six methods. *)
Definition DebugAPI_as_API (d : DebugAPI) : API := {|
  LabelNames := DebugAPI_LabelNames d;
  LabelValues := DebugAPI_LabelValues d;
  Query := DebugAPI_Query d;
  QueryRange := DebugAPI_QueryRange d;
  Series := DebugAPI_Series d;
  GetValue := DebugAPI_GetValue d
|}.

(** Modelled from the spec: [promclient.SeriesIterator], which is not among
    the source files.  Section 3: a "single-pass cursor over ascending
    (timestamp, value) pairs; operations: advance, peek current,
    seek-to-or-after(timestamp); terminal once exhausted".  The cursor is
    the point it stands on and the points still ahead. *)
Record SeriesIterator := {
  it_Labels : LabelSet;
  it_current : option SamplePair;
  it_rest : list SamplePair
}.

Definition NewSeriesIterator (labels : LabelSet) (points : list SamplePair)
  : SeriesIterator :=
  {| it_Labels := labels; it_current := None; it_rest := points |}.

(** advance *)
Definition Next (it : SeriesIterator) : bool * SeriesIterator :=
  match it_rest it with
  | [] => (false, {| it_Labels := it_Labels it; it_current := None; it_rest := [] |})
  | p :: rest =>
      (true, {| it_Labels := it_Labels it; it_current := Some p; it_rest := rest |})
  end.

(** peek current *)
Definition At (it : SeriesIterator) : option SamplePair := it_current it.

Fixpoint seek_points (t : model_Time) (ps : list SamplePair)
  : option SamplePair * list SamplePair :=
  match ps with
  | [] => (None, [])
  | p :: rest => if t <=? Pair_Timestamp p then (Some p, rest) else seek_points t rest
  end.

(** seek-to-or-after *)
Definition Seek (it : SeriesIterator) (t : model_Time) : bool * SeriesIterator :=
  let forward :=
    let '(cur, rest) := seek_points t (it_rest it) in
    (bool_decide (is_Some cur),
     {| it_Labels := it_Labels it; it_current := cur; it_rest := rest |}) in
  match it_current it with
  | Some p => if t <=? Pair_Timestamp p then (true, it) else forward
  | None => forward
  end.

(** The points a consumer gets by calling [Next] and [At] until [Next]
    says no, in at most [fuel] rounds. *)
Fixpoint drain (fuel : nat) (it : SeriesIterator) : list SamplePair :=
  match fuel with
  | O => []
  | S n =>
      match Next it with
      | (true, it') =>
          match At it' with
          | Some p => p :: drain n it'
          | None => drain n it'
          end
      | (false, _) => []
      end
  end.

Definition points (it : SeriesIterator) : list SamplePair :=
  drain (S (length (it_rest it))) it.

(** Modelled from the spec: how the adapter tells the metadata-path
    sentinel.  Section 4.2 calls it a Sample with "no usable
    timestamp/value"; the Sample the querier builds for it leaves both
    fields at their zero value, so that is the test. *)
Definition is_sentinel (s : Sample) : bool :=
  (Sample_Timestamp s =? 0) && (Sample_Value s =? 0).

Definition iterator_of_sample (s : option Sample) : Outcome SeriesIterator :=
  match s with
  | None => Panicked "nil pointer dereference"
  | Some s =>
      Returned
        (NewSeriesIterator (Sample_Metric s)
           (if is_sentinel s then []
            else [{| Pair_Timestamp := Sample_Timestamp s;
                     Pair_Value := Sample_Value s |}]))
  end.

Definition iterator_of_stream (s : option SampleStream) : Outcome SeriesIterator :=
  match s with
  | None => Panicked "nil pointer dereference"
  | Some s => Returned (NewSeriesIterator (Stream_Metric s) (Stream_Values s))
  end.

Fixpoint for_each {A B} (f : A -> Outcome B) (l : list A) : Outcome (list B) :=
  match l with
  | [] => Returned []
  | x :: rest =>
      match f x with
      | Panicked r => Panicked r
      | Returned y =>
          match for_each f rest with
          | Panicked r => Panicked r
          | Returned ys => Returned (y :: ys)
          end
      end
  end.

(** Modelled from the spec: [promclient.IteratorsForValue], which is not
    among the source files.  Section 4.3: "Vector: one Series per Sample;
    iterator yields the single point, except the metadata-path sentinel
    case, where the iterator is empty.  Matrix: one Series per
    SampleStream; iterator replays its points in original order.  Scalar /
    String: not representable as a SeriesSet; fails with an
    unsupported-shape error."  The call site takes a single result, so the
    failure is a panic; a nil value has no shape either. *)
Definition IteratorsForValue (v : option Value) : Outcome (list SeriesIterator) :=
  match v with
  | Some (ValVector samples) => for_each iterator_of_sample samples
  | Some (ValMatrix streams) => for_each iterator_of_stream streams
  | Some (ValScalar _ _) | Some (ValString _ _) | None =>
      Panicked "unsupported value shape"
  end.

End promclient.

(** ** The remote end *)

(** What the remote client answers to each call; the answer may depend on
    the arguments and on the world at the time of the call. *)
Record Remote := {
  r_LabelNames : Context -> World -> list string * api_Warnings * option error;
  r_LabelValues : Context -> string -> World ->
                  list string * api_Warnings * option error;
  r_Query : Context -> string -> time_Time -> World ->
            option Value * api_Warnings * option error;
  r_QueryRange : Context -> string -> Range -> World ->
                 option Value * api_Warnings * option error;
  r_Series : Context -> list string -> time_Time -> time_Time -> World ->
             list LabelSet * api_Warnings * option error;
  r_GetValue : Context -> time_Time -> time_Time -> list Matcher -> World ->
               option Value * api_Warnings * option error
}.

(** The client at the bottom of every stack of decorators: it notes the
    call with the arguments it was given and hands back the answer. *)
Definition RemoteClient (r : Remote) : promclient.API := {|
  promclient.LabelNames ctx :=
    let* resp := ask (r_LabelNames r ctx) in
    let* _ := record_call (CallLabelNames ctx) in
    ret resp;
  promclient.LabelValues ctx label :=
    let* resp := ask (r_LabelValues r ctx label) in
    let* _ := record_call (CallLabelValues ctx label) in
    ret resp;
  promclient.Query ctx query ts :=
    let* resp := ask (r_Query r ctx query ts) in
    let* _ := record_call (CallQuery ctx query ts) in
    ret resp;
  promclient.QueryRange ctx query rg :=
    let* resp := ask (r_QueryRange r ctx query rg) in
    let* _ := record_call (CallQueryRange ctx query rg) in
    ret resp;
  promclient.Series ctx matches startTime endTime :=
    let* resp := ask (r_Series r ctx matches startTime endTime) in
    let* _ := record_call (CallSeries ctx matches startTime endTime) in
    ret resp;
  promclient.GetValue ctx start_ end_ matchers :=
    let* resp := ask (r_GetValue r ctx start_ end_ matchers) in
    let* _ := record_call (CallGetValue ctx start_ end_ matchers) in
    ret resp
|}.

(** ** pkg/proxyquerier *)

Module proxyquerier.

(** [proxyconfig.PromxyConfig] is declared in pkg/config; no method below
    reads it. *)
Definition PromxyConfig : Type := unit.

Record ProxyQuerier := {
  Ctx : Context;
  Start : time_Time;
  End_ : time_Time;
  Client : promclient.API;
  Cfg : option PromxyConfig
}.

(** Modelled from the spec: [Series] and [NewSeriesSet], which are not among
    the source files.  Section 3: a Series is a LabelSet with a way to get a
    fresh iterator, and a SeriesSet is an "ordered collection of Series;
    order follows the order series/samples appeared in the RemoteValue (not
    re-sorted)".  The source builds a Series as [&Series{iterator}] and the
    set from a [[]storage.Series], where [None] is a nil interface. *)
Record Series := { Series_It : promclient.SeriesIterator }.

Definition Labels (s : Series) : LabelSet := promclient.it_Labels (Series_It s).
Definition Iterator (s : Series) : promclient.SeriesIterator := Series_It s.

Record SeriesSet := { set_series : list (option Series) }.

Definition NewSeriesSet (series : list (option Series)) : SeriesSet :=
  {| set_series := series |}.

(** Lines 62-67 of [Select]: the Vector made from the discovered label
    sets, one Sample each with only [Metric] given. *)
Definition Select_retVector (labelsets : list LabelSet) : Outcome Vector :=
  range_assign
    (fun labelset =>
       Some {| Sample_Metric := labelset; Sample_Value := 0;
               Sample_Timestamp := 0 |})
    0 labelsets (make (length labelsets) None).

(** Lines 80-83 of [Select]. *)
Definition Select_series (iterators : list promclient.SeriesIterator)
  : Outcome (list (option Series)) :=
  range_assign (fun iterator => Some {| Series_It := iterator |})
    0 iterators (make (length iterators) None).

(** [Select].  A [return] from inside the first branch leaves the function
    ([inl]); otherwise the branch ends with [result], [warnings] and the
    function's own [err] set ([inr]).  In the first branch [err] is a new
    variable of that block, so the function's own [err] is still nil when
    the branch is done. *)
Definition Select (h : ProxyQuerier) (selectParams : option SelectParams)
    (matchers : list Matcher)
  : M (option SeriesSet * storage_Warnings * option error) :=
  let* start := time_Now in
  defer
    (let* now := time_Now in
     logrus_Debug
       (list_to_map [("selectParams", FSelectParams selectParams);
                     ("matchers", FMatchers matchers);
                     ("took", FDuration (time_Sub now start))])
       "Select")
    (let* branch :=
       match selectParams with
       | None =>
           let '(matcherString, err) := promutil.MatcherToString matchers in
           match err with
           | Some _ => ret (inl (None, [], err))
           | None =>
               let* (labelsets, w, err) :=
                 promclient.Series (Client h) (Ctx h) [matcherString] (Start h) (End_ h) in
               let warnings := promutil.WarningsConvert w in
               match err with
               | Some _ => ret (inl (None, warnings, errors_Cause err))
               | None =>
                   let* retVector := lift (Select_retVector labelsets) in
                   ret (inr (Some (ValVector retVector), warnings, None))
               end
           end
       | Some selectParams =>
           let* (result, w, err) :=
             promclient.GetValue (Client h) (Ctx h)
               (timestamp_Time (sp_Start selectParams))
               (timestamp_Time (sp_End selectParams)) matchers in
           let warnings := promutil.WarningsConvert w in
           ret (inr (result, warnings, err))
       end in
     match branch with
     | inl returned => ret returned
     | inr (result, warnings, err) =>
         match err with
         | Some _ => ret (None, warnings, errors_Cause err)
         | None =>
             let* iterators := lift (promclient.IteratorsForValue result) in
             let* series := lift (Select_series iterators) in
             ret (Some (NewSeriesSet series), warnings, None)
         end
     end).

Definition LabelValues (h : ProxyQuerier) (name : string)
  : M (list string * storage_Warnings * option error) :=
  let* start := time_Now in
  defer
    (let* now := time_Now in
     logrus_Debug
       (list_to_map [("name", FString name);
                     ("took", FDuration (time_Sub now start))])
       "LabelValues")
    (let* (result, w, err) := promclient.LabelValues (Client h) (Ctx h) name in
     let warnings := promutil.WarningsConvert w in
     match err with
     | Some _ => ret ([], warnings, errors_Cause err)
     | None =>
         let* ret_ :=
           lift (range_assign (fun r => r) 0 result (make (length result) "")) in
         ret (ret_, warnings, None)
     end).

Definition LabelNames (h : ProxyQuerier)
  : M (list string * storage_Warnings * option error) :=
  let* start := time_Now in
  defer
    (let* now := time_Now in
     logrus_Debug
       (list_to_map [("took", FDuration (time_Sub now start))])
       "LabelNames")
    (let* (v, w, err) := promclient.LabelNames (Client h) (Ctx h) in
     ret (v, promutil.WarningsConvert w, err)).

Definition Close (h : ProxyQuerier) : M (option error) := ret None.

End proxyquerier.

(** ** Observations used in the statements *)

(** Each querier method reads the clock once and then calls the client:
    this is the world in which a method entered in [w] makes that call. *)
Definition at_call (w : World) : World := snd (time_Now w).

(** [w'] is [w] after some logging and some readings of the clock, and
    nothing else: same clock, same level, same remote calls. *)
Definition only_logged (w w' : World) : Prop :=
  wall w' = wall w /\ level w' = level w /\ calls w' = calls w /\
  (reads w <= reads w')%nat /\ exists es, entries w' = entries w ++ es.

(** The label sets of a SeriesSet, in its order. *)
Definition SeriesSet_labels (s : proxyquerier.SeriesSet) : list (option LabelSet) :=
  fmap (M := option) proxyquerier.Labels <$> proxyquerier.set_series s.

(** The iterators of a SeriesSet, in its order. *)
Definition SeriesSet_iterators (s : proxyquerier.SeriesSet)
  : list (option promclient.SeriesIterator) :=
  fmap (M := option) proxyquerier.Iterator <$> proxyquerier.set_series s.

(** A decorated operation is transparent for the one it wraps when, from
    every world, it gives the outcome that the wrapped operation gives in a
    world that differs from the first by logging only, and leaves the world
    that the wrapped operation leaves, but for logging. *)
Definition transparent {A} (decorated wrapped : M A) : Prop :=
  forall w, exists w1 w',
    only_logged w w1
    /\ decorated w = (fst (wrapped w1), w')
    /\ only_logged (snd (wrapped w1)) w'.

(** The selector lists that the Series calls of a trace were given. *)
Definition selectors_sent (cs : list Call) : list (list string) :=
  omap (fun c => match c with
                 | CallSeries _ matches _ _ => Some matches
                 | _ => None
                 end) cs.

(** The series that [Select] makes of an iterator, and the Sample it makes
    of a discovered label set. *)
Definition series_of (iterator : promclient.SeriesIterator)
  : option proxyquerier.Series :=
  Some {| proxyquerier.Series_It := iterator |}.

Definition label_sample (labelset : LabelSet) : option Sample :=
  Some {| Sample_Metric := labelset; Sample_Value := 0; Sample_Timestamp := 0 |}.

(** The tail of [Select], from line 78 on. *)
Definition Select_tail (result : option Value) (warnings : storage_Warnings)
  : Outcome (option proxyquerier.SeriesSet * storage_Warnings * option error) :=
  match promclient.IteratorsForValue result with
  | Panicked r => Panicked r
  | Returned iterators =>
      Returned (Some (proxyquerier.NewSeriesSet (series_of <$> iterators)),
                warnings, None)
  end.

(** The outcome of [Select] after a remote call gave [answer]. *)
Definition Select_after {V} (tail : V -> storage_Warnings ->
      Outcome (option proxyquerier.SeriesSet * storage_Warnings * option error))
    (answer : Outcome (V * api_Warnings * option error))
  : Outcome (option proxyquerier.SeriesSet * storage_Warnings * option error) :=
  match answer with
  | Panicked r => Panicked r
  | Returned (_, ws, Some e) =>
      Returned (None, promutil.WarningsConvert ws, errors_Cause (Some e))
  | Returned (v, ws, None) => tail v (promutil.WarningsConvert ws)
  end.

(** The warnings in what a querier method returned. *)
Definition warnings_of {A} (o : Outcome (A * storage_Warnings * option error))
  : option storage_Warnings :=
  match o with
  | Returned (_, warnings, _) => Some warnings
  | Panicked _ => None
  end.

(** ** Concrete inputs *)

Module example.

Definition world : World := {|
  wall := fun n => timestamp_Time (1000 * Z.of_nat n);
  reads := 0;
  level := DebugLevel;
  entries := [];
  calls := []
|}.

Definition api_a : LabelSet := <["instance" := "a"]> {["job" := "api"]}.
Definition api_b : LabelSet := <["instance" := "b"]> {["job" := "api"]}.

Definition job_api : Matcher :=
  {| m_Type := MatchEqual; m_Name := "job"; m_Value := "api" |}.
Definition env_not_dev : Matcher :=
  {| m_Type := MatchNotEqual; m_Name := "env"; m_Value := "dev" |}.

Definition params : SelectParams :=
  {| sp_Start := 100; sp_End := 200; sp_Step := 0; sp_Func := "" |}.

Definition stream : SampleStream := {|
  Stream_Metric := api_a;
  Stream_Values := [ {| Pair_Timestamp := 100; Pair_Value := 1 |};
                     {| Pair_Timestamp := 150; Pair_Value := 2 |};
                     {| Pair_Timestamp := 200; Pair_Value := 3 |} ]
|}.

(** A remote that answers every call, with one warning. *)
Definition healthy : Remote := {|
  r_LabelNames _ _ := (["instance"; "job"], ["slow"], None);
  r_LabelValues _ _ _ := (["a"; "b"], ["slow"], None);
  r_Query _ _ _ _ := (Some (ValVector []), ["slow"], None);
  r_QueryRange _ _ _ _ := (Some (ValMatrix [Some stream]), ["slow"], None);
  r_Series _ _ _ _ _ := ([api_a; api_b], ["slow"], None);
  r_GetValue _ _ _ _ _ := (Some (ValMatrix [Some stream]), ["slow"], None)
|}.

Definition root : error := errors_New "connection refused".
Definition wrapped : error := errors_Wrap (errors_Wrap root "querying") "remote read".

(** A remote that fails every call with a doubly wrapped error, and still
    attaches two warnings. *)
Definition failing : Remote := {|
  r_LabelNames _ _ := ([], ["first"; "second"], Some wrapped);
  r_LabelValues _ _ _ := ([], ["first"; "second"], Some wrapped);
  r_Query _ _ _ _ := (None, ["first"; "second"], Some wrapped);
  r_QueryRange _ _ _ _ := (None, ["first"; "second"], Some wrapped);
  r_Series _ _ _ _ _ := ([], ["first"; "second"], Some wrapped);
  r_GetValue _ _ _ _ _ := (None, ["first"; "second"], Some wrapped)
|}.

Definition querier (r : Remote) : proxyquerier.ProxyQuerier := {|
  proxyquerier.Ctx := {| ctx_id := 7 |};
  proxyquerier.Start := timestamp_Time 1000;
  proxyquerier.End_ := timestamp_Time 2000;
  proxyquerier.Client := RemoteClient r;
  proxyquerier.Cfg := None
|}.

End example.

(** ** Further observations *)

(** What a Debug line adds to the log under a given level. *)
Definition debug_line (lvl : Level) (fields : Fields) (msg : string) : list Entry :=
  if level_num DebugLevel <=? level_num lvl
  then [{| e_level := DebugLevel; e_fields := fields; e_message := msg |}]
  else [].

(** The remote calls that [Select] issues. *)
Definition Select_sent (h : proxyquerier.ProxyQuerier)
    (selectParams : option SelectParams) (matchers : list Matcher) : list Call :=
  match selectParams with
  | Some p =>
      [CallGetValue (proxyquerier.Ctx h) (timestamp_Time (sp_Start p))
         (timestamp_Time (sp_End p)) matchers]
  | None =>
      match promutil.MatcherToString matchers with
      | (matcherString, None) =>
          [CallSeries (proxyquerier.Ctx h) [matcherString] (proxyquerier.Start h)
             (proxyquerier.End_ h)]
      | (_, Some _) => []
      end
  end.

(** The time between the two readings of the clock that a method takes
    when it is entered in [w] and nothing else reads the clock. *)
Definition took_in (w : World) : Duration :=
  time_Sub (wall w (S (reads w))) (wall w (reads w)).

(** An entry has none of the keys under which [DebugAPI] logs a result. *)
Definition no_payload (e : Entry) : Prop :=
  e_fields e !! "value" = None
  /\ e_fields e !! "warnings" = None
  /\ e_fields e !! "error" = None.

(** The body that the six methods of [DebugAPI] share: they differ in the
    fields they start with, in the call they forward to and in the type of
    its value. *)
Definition debug_wrap {V} (prefix : string) (fields : Fields)
    (value : V -> FieldValue) (call : M (V * api_Warnings * option error))
  : M (V * api_Warnings * option error) :=
  let* _ := logrus_Debug fields prefix in
  let* s := time_Now in
  let* (v, w, err) := call in
  let* now := time_Now in
  let fields := <["took" := FDuration (time_Sub now s)]> fields in
  let* lvl := logrus_GetLevel in
  let* _ :=
    if level_num DebugLevel <? level_num lvl then
      let fields := <["value" := value v]> fields in
      let fields := <["warnings" := FStrings w]> fields in
      let fields := <["error" := FError err]> fields in
      logrus_Trace fields prefix
    else logrus_Debug fields prefix in
  ret (v, w, err).

(** A property of each of the six methods of a [DebugAPI], given how the
    method logs its value, the method itself and the method it wraps. *)
Definition each_method
    (P : forall V : Type, (V -> FieldValue) ->
         M (V * api_Warnings * option error) ->
         M (V * api_Warnings * option error) -> Prop)
    (d : promclient.DebugAPI) : Prop :=
  (forall ctx,
      P _ FStrings (promclient.DebugAPI_LabelNames d ctx)
        (promclient.LabelNames (promclient.DebugAPI_API d) ctx))
  /\ (forall ctx label,
      P _ FStrings (promclient.DebugAPI_LabelValues d ctx label)
        (promclient.LabelValues (promclient.DebugAPI_API d) ctx label))
  /\ (forall ctx query ts,
      P _ FValue (promclient.DebugAPI_Query d ctx query ts)
        (promclient.Query (promclient.DebugAPI_API d) ctx query ts))
  /\ (forall ctx query r,
      P _ FValue (promclient.DebugAPI_QueryRange d ctx query r)
        (promclient.QueryRange (promclient.DebugAPI_API d) ctx query r))
  /\ (forall ctx matches startTime endTime,
      P _ FLabelSets (promclient.DebugAPI_Series d ctx matches startTime endTime)
        (promclient.Series (promclient.DebugAPI_API d) ctx matches startTime endTime))
  /\ (forall ctx start_ end_ matchers,
      P _ FValue (promclient.DebugAPI_GetValue d ctx start_ end_ matchers)
        (promclient.GetValue (promclient.DebugAPI_API d) ctx start_ end_ matchers)).

(** Below the Debug level the method writes nothing. *)
Definition silent_below_debug {A} (op : M A) : Prop :=
  forall w, level_num (level w) < level_num DebugLevel ->
    entries (snd (op w)) = entries w.

(** [w] after one more reading of the clock and with [e] written to the
    log. *)
Definition wrote (w : World) (e : Entry) : World :=
  {| wall := wall w; reads := S (reads w); level := level w;
     entries := entries w ++ [e]; calls := calls w |}.

(** At the Debug level the method first writes a Debug entry [e0] without
    the result and without the time taken, and the wrapped call runs in the
    world that holds [e0]; when that call returns, with the level still
    Debug, the method returns the same and leaves the world of the call
    with one more entry, [e0] with the time taken added. *)
Definition debug_lines_around_call {A} (prefix : string)
    (decorated wrapped : M A) : Prop :=
  forall w, level w = DebugLevel ->
    exists e0,
      e_level e0 = DebugLevel /\ e_message e0 = prefix
      /\ no_payload e0 /\ e_fields e0 !! "took" = None
      /\ forall res wb,
          wrapped (wrote w e0) = (Returned res, wb) ->
          level wb = DebugLevel ->
          decorated w
          = (Returned res,
             wrote wb
               {| e_level := DebugLevel;
                  e_fields :=
                    <["took" := FDuration (time_Sub (wall wb (reads wb))
                                             (wall w (reads w)))]>
                      (e_fields e0);
                  e_message := prefix |}).

(** At the Trace level the method first writes the same Debug entry [e0],
    and the wrapped call runs in the world that holds it; when that call
    returns, with the level still Trace, the method returns the same and
    leaves the world of the call with one more entry, a Trace entry that is
    [e0] with the time taken and the value, the warnings and the error of
    the call added. *)
Definition trace_line_around_call {V} (prefix : string) (value : V -> FieldValue)
    (decorated wrapped : M (V * api_Warnings * option error)) : Prop :=
  forall w, level w = TraceLevel ->
    exists e0,
      e_level e0 = DebugLevel /\ e_message e0 = prefix
      /\ no_payload e0 /\ e_fields e0 !! "took" = None
      /\ forall v ws err wb,
          wrapped (wrote w e0) = (Returned (v, ws, err), wb) ->
          level wb = TraceLevel ->
          decorated w
          = (Returned (v, ws, err),
             wrote wb
               {| e_level := TraceLevel;
                  e_fields :=
                    <["error" := FError err]>
                      (<["warnings" := FStrings ws]>
                         (<["value" := value v]>
                            (<["took" := FDuration (time_Sub (wall wb (reads wb))
                                                     (wall w (reads w)))]>
                               (e_fields e0))));
                  e_message := prefix |}).

(** When the wrapped call panics, so does the decorated one, and it leaves
    the world as the wrapped call left it: nothing is logged afterwards. *)
Definition panic_skips_last_line {A} (decorated wrapped : M A) : Prop :=
  forall w, exists w1,
    only_logged w w1
    /\ forall reason wb,
        wrapped w1 = (Panicked reason, wb) ->
        decorated w = (Panicked reason, wb).

(** A remote whose answers do not depend on the world in which it is
    asked. *)
Definition world_blind (r : Remote) : Prop :=
  (forall ctx w w', r_LabelNames r ctx w = r_LabelNames r ctx w')
  /\ (forall ctx label w w', r_LabelValues r ctx label w = r_LabelValues r ctx label w')
  /\ (forall ctx query ts w w', r_Query r ctx query ts w = r_Query r ctx query ts w')
  /\ (forall ctx query rg w w',
        r_QueryRange r ctx query rg w = r_QueryRange r ctx query rg w')
  /\ (forall ctx matches s e w w',
        r_Series r ctx matches s e w = r_Series r ctx matches s e w')
  /\ (forall ctx s e matchers w w',
        r_GetValue r ctx s e matchers w = r_GetValue r ctx s e matchers w').

(** ** More concrete inputs *)

Module example2.

(** A matcher whose type is none of the four constants. *)
Definition odd_matcher : Matcher :=
  {| m_Type := MatchOther 9; m_Name := "job"; m_Value := "api" |}.

Definition world_at (l : Level) : World := {|
  wall := wall example.world;
  reads := 0;
  level := l;
  entries := [];
  calls := []
|}.

(** A client whose every method panics. *)
Definition panicking : promclient.API := {|
  promclient.LabelNames _ := panic "client down";
  promclient.LabelValues _ _ := panic "client down";
  promclient.Query _ _ _ := panic "client down";
  promclient.QueryRange _ _ _ := panic "client down";
  promclient.Series _ _ _ _ := panic "client down";
  promclient.GetValue _ _ _ _ := panic "client down"
|}.

Definition debugged (r : Remote) : promclient.DebugAPI :=
  {| promclient.DebugAPI_API := RemoteClient r;
     promclient.PrefixMessage := "remote" |}.

(** The example querier with its client behind a [DebugAPI]. *)
Definition querier_logged (r : Remote) : proxyquerier.ProxyQuerier := {|
  proxyquerier.Ctx := {| ctx_id := 7 |};
  proxyquerier.Start := timestamp_Time 1000;
  proxyquerier.End_ := timestamp_Time 2000;
  proxyquerier.Client := promclient.DebugAPI_as_API (debugged r);
  proxyquerier.Cfg := None
|}.

End example2.

(** * Properties *)

(** ** Slices, time and errors *)

Lemma range_assign_from {A B} (f : A -> B) (z : B) (src : list A) :
  forall done_ : list B,
    range_assign f (length done_) src (done_ ++ make (length src) z)
    = Returned (done_ ++ (f <$> src)).
Proof.
  unfold make.
  induction src as [|x rest IH]; intros done_; simpl.
  - reflexivity.
  - unfold slice_set.
    destruct (decide (length done_ < length (done_ ++ z :: replicate (length rest) z))%nat)
      as [_|Hout].
    + rewrite insert_app_r_alt by lia.
      rewrite Nat.sub_diag. simpl.
      specialize (IH (done_ ++ [f x])).
      rewrite length_app in IH. simpl in IH.
      rewrite Nat.add_1_r in IH.
      rewrite <- !app_assoc in IH. simpl in IH.
      exact IH.
    + exfalso. apply Hout. rewrite length_app. simpl. lia.
Qed.

(** The Go idiom [dst := make([]T, len(src)); for i, x := range src
    { dst[i] = f(x) }] never panics and leaves [f] of every element, in
    order. *)
Lemma range_assign_make {A B} (f : A -> B) (z : B) (src : list A) :
  range_assign f 0 src (make (length src) z) = Returned (f <$> src).
Proof. exact (range_assign_from f z src []). Qed.

Lemma time_Unix_normal (s n : Z) :
  0 <= n < 1000000000 -> time_Unix s n = {| sec := s; nsec := n |}.
Proof.
  intros Hn. unfold time_Unix.
  destruct (n <? 0) eqn:E1; [apply Z.ltb_lt in E1; lia|].
  destruct (1000000000 <=? n) eqn:E2; [apply Z.leb_le in E2; lia|].
  reflexivity.
Qed.

Lemma time_Unix_borrow (s n : Z) :
  -1000000000 < n < 0 ->
  time_Unix s n = {| sec := s - 1; nsec := n + 1000000000 |}.
Proof.
  intros Hn. unfold time_Unix.
  destruct (n <? 0) eqn:E1; [|apply Z.ltb_ge in E1; lia].
  simpl.
  assert (Hq : n ÷ 1000000000 = 0).
  { replace n with (- (- n)) by lia.
    rewrite Z.quot_opp_l by lia.
    rewrite Z.quot_small by lia. reflexivity. }
  rewrite Hq. rewrite Z.add_0_r, Z.mul_0_l, Z.sub_0_r.
  rewrite E1. reflexivity.
Qed.

(** A millisecond timestamp is read back unchanged from the [time.Time]
    that [timestamp.Time] makes of it. *)
Lemma timestamp_FromTime_Time (ts : Z) :
  timestamp_FromTime (timestamp_Time ts) = ts.
Proof.
  unfold timestamp_Time, timestamp_FromTime.
  pose proof (Z.quot_rem' ts 1000) as Hqr.
  destruct (Z_lt_le_dec ts 0) as [Hneg|Hpos].
  - pose proof (Z.rem_bound_pos_neg ts 1000 ltac:(lia) ltac:(lia)) as Hr.
    destruct (Z.eq_dec (Z.rem ts 1000) 0) as [Hz|Hnz].
    + rewrite Hz. rewrite time_Unix_normal by lia. simpl.
      rewrite Z.quot_mul by lia. lia.
    + rewrite time_Unix_borrow by lia. simpl.
      replace (Z.rem ts 1000 * 1000000 + 1000000000)
        with ((Z.rem ts 1000 + 1000) * 1000000) by lia.
      rewrite Z.quot_mul by lia. lia.
  - pose proof (Z.rem_bound_pos ts 1000 ltac:(lia) ltac:(lia)) as Hr.
    rewrite time_Unix_normal by lia. simpl.
    rewrite Z.quot_mul by lia. lia.
Qed.

Lemma timestamp_Time_inj (a b : Z) :
  timestamp_Time a = timestamp_Time b -> a = b.
Proof.
  intros H. rewrite <- (timestamp_FromTime_Time a), <- (timestamp_FromTime_Time b).
  now rewrite H.
Qed.

Lemma root_cause_fundamental (e c : error) :
  root_cause e = Some c -> exists msg, c = fundamental msg.
Proof. induction e; simpl; intros H; try discriminate; eauto. injection H as <-. eauto. Qed.

Lemma root_cause_idem (e c : error) : root_cause e = Some c -> root_cause c = Some c.
Proof.
  intros H. destruct (root_cause_fundamental e c H) as [msg ->]. reflexivity.
Qed.

Lemma root_cause_Wrap (e : error) (msg : string) :
  root_cause (errors_Wrap e msg) = root_cause e.
Proof. reflexivity. Qed.

(** ** Logging and [defer] *)

Lemma only_logged_refl (w : World) : only_logged w w.
Proof. unfold only_logged. repeat split; auto. exists []. now rewrite app_nil_r. Qed.

Lemma only_logged_trans (w1 w2 w3 : World) :
  only_logged w1 w2 -> only_logged w2 w3 -> only_logged w1 w3.
Proof.
  intros (Ha & Hb & Hc & Hd & es & He) (Ha' & Hb' & Hc' & Hd' & es' & He').
  unfold only_logged. repeat split; try congruence; try lia.
  exists (es ++ es'). rewrite He', He. now rewrite app_assoc.
Qed.

Lemma time_Now_logged (w : World) :
  time_Now w = (Returned (wall w (reads w)), at_call w) /\ only_logged w (at_call w).
Proof.
  split; [reflexivity|].
  unfold only_logged, at_call; simpl. repeat split; auto.
  exists []. now rewrite app_nil_r.
Qed.

Lemma logrus_Log_logged (lvl : Level) (fields : Fields) (msg : string) (w : World) :
  exists w', logrus_Log lvl fields msg w = (Returned tt, w') /\ only_logged w w'.
Proof.
  unfold logrus_Log, bind, logrus_GetLevel.
  destruct (level_num lvl <=? level_num (level w)).
  - eexists; split; [reflexivity|].
    unfold only_logged; simpl. repeat split; auto. eexists; reflexivity.
  - eexists; split; [reflexivity|]. apply only_logged_refl.
Qed.

(** What every querier method defers: read the clock, write one Debug
    entry.  It returns, and only logs. *)
Lemma deferred_log_logged (fields : time_Time -> Fields) (msg : string) (w : World) :
  exists w',
    (let* now := time_Now in logrus_Debug (fields now) msg) w = (Returned tt, w')
    /\ only_logged w w'.
Proof.
  unfold bind. destruct (time_Now_logged w) as [-> Hn].
  destruct (logrus_Log_logged DebugLevel (fields (wall w (reads w))) msg (at_call w))
    as (w' & Hl & Hw').
  exists w'. split; [exact Hl|]. eapply only_logged_trans; eauto.
Qed.

Lemma defer_logged {A} (d : M unit) (body : M A) (w : World) :
  (forall w1, exists w2, d w1 = (Returned tt, w2) /\ only_logged w1 w2) ->
  exists w', defer d body w = (fst (body w), w') /\ only_logged (snd (body w)) w'.
Proof.
  intros Hd. unfold defer.
  destruct (body w) as [o w1]. destruct (Hd w1) as (w2 & -> & Hw2).
  simpl. eauto.
Qed.

(** Replaces the outcome of a method by the outcome of its body, and relates
    the two final worlds, when what the method defers is the usual log
    line. *)
Ltac peel_defer w' Hworld :=
  match goal with
  | |- context [@defer ?A ?d ?b ?x] =>
      let Hd := fresh "Hd" in
      assert (Hd : forall w1, exists w2,
                 d w1 = (Returned tt, w2) /\ only_logged w1 w2)
        by (intros w1; apply (deferred_log_logged _ _ w1));
      destruct (@defer_logged A d b x Hd) as (w' & -> & Hworld); clear Hd
  end.

(** ** What [Select] returns, by case *)

Lemma Select_retVector_eq (labelsets : list LabelSet) :
  proxyquerier.Select_retVector labelsets = Returned (label_sample <$> labelsets).
Proof. unfold proxyquerier.Select_retVector. apply range_assign_make. Qed.

Lemma Select_series_eq (iterators : list promclient.SeriesIterator) :
  proxyquerier.Select_series iterators = Returned (series_of <$> iterators).
Proof. unfold proxyquerier.Select_series. apply range_assign_make. Qed.

Lemma Select_data_run (h : proxyquerier.ProxyQuerier) (p : SelectParams)
    (matchers : list Matcher) (w : World) :
  let remote :=
    promclient.GetValue (proxyquerier.Client h) (proxyquerier.Ctx h)
      (timestamp_Time (sp_Start p)) (timestamp_Time (sp_End p)) matchers
      (at_call w) in
  exists w',
    proxyquerier.Select h (Some p) matchers w
    = (Select_after Select_tail (fst remote), w')
    /\ only_logged (snd remote) w'.
Proof.
  intros remote. unfold proxyquerier.Select.
  unfold bind at 1. destruct (time_Now_logged w) as [-> _].
  peel_defer w' Hworld. exists w'.
  revert Hworld. unfold bind. fold remote.
  destruct remote as [[[[result ws] err]|r] w1]; simpl; [|auto].
  destruct err as [e|]; simpl; [auto|].
  unfold Select_tail, lift.
  destruct (promclient.IteratorsForValue result) as [its|r]; simpl; [|auto].
  rewrite Select_series_eq. simpl. auto.
Qed.

Lemma Select_metadata_run (h : proxyquerier.ProxyQuerier)
    (matchers : list Matcher) (w : World) (s : string) :
  promutil.MatcherToString matchers = (s, None) ->
  let remote :=
    promclient.Series (proxyquerier.Client h) (proxyquerier.Ctx h) [s]
      (proxyquerier.Start h) (proxyquerier.End_ h) (at_call w) in
  exists w',
    proxyquerier.Select h None matchers w
    = (Select_after
         (fun labelsets =>
            Select_tail (Some (ValVector (label_sample <$> labelsets))))
         (fst remote), w')
    /\ only_logged (snd remote) w'.
Proof.
  intros Hs remote. unfold proxyquerier.Select.
  unfold bind at 1. destruct (time_Now_logged w) as [-> _].
  peel_defer w' Hworld. exists w'.
  revert Hworld. rewrite Hs. unfold bind. fold remote.
  destruct remote as [[[[labelsets ws] err]|r] w1]; simpl; [|auto].
  destruct err as [e|]; simpl; [auto|].
  unfold lift, ret. rewrite Select_retVector_eq. cbv beta iota.
  unfold Select_tail.
  destruct (promclient.IteratorsForValue _) as [its|r]; cbn [fst snd]; [|auto].
  rewrite Select_series_eq. cbn [fst snd]. auto.
Qed.

Lemma Select_untranslatable_run (h : proxyquerier.ProxyQuerier)
    (matchers : list Matcher) (w : World) (s : string) (e : error) :
  promutil.MatcherToString matchers = (s, Some e) ->
  exists w',
    proxyquerier.Select h None matchers w = (Returned (None, [], Some e), w')
    /\ only_logged w w'.
Proof.
  intros Hs. unfold proxyquerier.Select.
  unfold bind at 1. destruct (time_Now_logged w) as [-> Hnow].
  peel_defer w' Hworld. exists w'.
  revert Hworld. rewrite Hs. unfold bind, ret. simpl.
  intros Hworld. split; [reflexivity|].
  eapply only_logged_trans; eauto.
Qed.

(** The remote client records exactly the call it is given. *)
Lemma RemoteClient_GetValue_calls (r : Remote) ctx start_ end_ matchers (w : World) :
  promclient.GetValue (RemoteClient r) ctx start_ end_ matchers w
  = (Returned (r_GetValue r ctx start_ end_ matchers w),
     snd (record_call (CallGetValue ctx start_ end_ matchers) w)).
Proof. reflexivity. Qed.

Lemma RemoteClient_Series_calls (r : Remote) ctx matches startTime endTime (w : World) :
  promclient.Series (RemoteClient r) ctx matches startTime endTime w
  = (Returned (r_Series r ctx matches startTime endTime w),
     snd (record_call (CallSeries ctx matches startTime endTime) w)).
Proof. reflexivity. Qed.

Lemma RemoteClient_LabelNames_calls (r : Remote) ctx (w : World) :
  promclient.LabelNames (RemoteClient r) ctx w
  = (Returned (r_LabelNames r ctx w), snd (record_call (CallLabelNames ctx) w)).
Proof. reflexivity. Qed.

Lemma RemoteClient_LabelValues_calls (r : Remote) ctx label (w : World) :
  promclient.LabelValues (RemoteClient r) ctx label w
  = (Returned (r_LabelValues r ctx label w),
     snd (record_call (CallLabelValues ctx label) w)).
Proof. reflexivity. Qed.

(** ** The other querier methods *)

Lemma LabelValues_run (h : proxyquerier.ProxyQuerier) (name : string) (w : World) :
  let remote :=
    promclient.LabelValues (proxyquerier.Client h) (proxyquerier.Ctx h) name
      (at_call w) in
  exists w',
    proxyquerier.LabelValues h name w
    = (match fst remote with
       | Panicked r => Panicked r
       | Returned (_, ws, Some e) =>
           Returned ([], promutil.WarningsConvert ws, errors_Cause (Some e))
       | Returned (result, ws, None) =>
           Returned (result, promutil.WarningsConvert ws, None)
       end, w')
    /\ only_logged (snd remote) w'.
Proof.
  intros remote. unfold proxyquerier.LabelValues.
  unfold bind at 1. destruct (time_Now_logged w) as [-> _].
  peel_defer w' Hworld. exists w'.
  revert Hworld. unfold bind. fold remote.
  destruct remote as [[[[result ws] err]|r] w1]; simpl; [|auto].
  destruct err as [e|]; simpl; [auto|].
  unfold lift, ret. rewrite range_assign_make. cbv beta iota.
  rewrite list_fmap_id. auto.
Qed.

Lemma LabelNames_run (h : proxyquerier.ProxyQuerier) (w : World) :
  let remote :=
    promclient.LabelNames (proxyquerier.Client h) (proxyquerier.Ctx h) (at_call w) in
  exists w',
    proxyquerier.LabelNames h w
    = (match fst remote with
       | Panicked r => Panicked r
       | Returned (v, ws, err) => Returned (v, promutil.WarningsConvert ws, err)
       end, w')
    /\ only_logged (snd remote) w'.
Proof.
  intros remote. unfold proxyquerier.LabelNames.
  unfold bind at 1. destruct (time_Now_logged w) as [-> _].
  peel_defer w' Hworld. exists w'.
  revert Hworld. unfold bind. fold remote.
  destruct remote as [[[[v ws] err]|r] w1]; simpl; auto.
Qed.

(** ** The logging decorator *)

(** The end of every [DebugAPI] method: look at the level, write one Trace
    or one Debug entry, return what the wrapped call gave. *)
Lemma debug_leave {A} (dbg trc : Fields) (prefix : string) (res : A) (w : World) :
  exists w',
    bind logrus_GetLevel
      (fun lvl =>
         bind (if level_num DebugLevel <? level_num lvl
               then logrus_Trace trc prefix else logrus_Debug dbg prefix)
           (fun _ => ret res)) w
    = (Returned res, w') /\ only_logged w w'.
Proof.
  unfold bind at 1. unfold logrus_GetLevel.
  unfold bind, logrus_Debug, logrus_Trace.
  destruct (level_num DebugLevel <? level_num (level w)).
  - destruct (logrus_Log_logged TraceLevel trc prefix w) as (w' & -> & Hw'). eauto.
  - destruct (logrus_Log_logged DebugLevel dbg prefix w) as (w' & -> & Hw'). eauto.
Qed.

(** One proof for the six methods, which differ in their fields and in the
    method they forward to: walk through the first log line, the clock, the
    wrapped call, the clock again and the last log line. *)
Ltac debug_transparent :=
  let w := fresh "w" in
  intros w; cbv zeta; unfold logrus_Debug at 1;
  unfold bind at 1;
  match goal with
  | |- context [logrus_Log ?l ?f ?m w] =>
      let wa := fresh "wa" in
      let Hwa := fresh "Hwa" in
      destruct (logrus_Log_logged l f m w) as (wa & -> & Hwa);
      unfold bind at 1;
      let Hnow := fresh "Hnow" in
      destruct (time_Now_logged wa) as [-> Hnow];
      exists (at_call wa);
      unfold bind at 1;
      match goal with
      | |- context [fst ?call] =>
          let v := fresh "v" in let ws := fresh "ws" in let err := fresh "err" in
          let r := fresh "r" in let wb := fresh "wb" in
          destruct call as [[[[v ws] err]|r] wb]; cbn [fst snd];
          [ unfold bind at 1;
            let Hnow2 := fresh "Hnow" in
            destruct (time_Now_logged wb) as [-> Hnow2];
            match goal with
            | |- context [bind logrus_GetLevel
                            (fun x => bind (if _ then logrus_Trace ?trc ?p
                                            else logrus_Debug ?dbg ?p) _) _] =>
                let w' := fresh "w'" in
                let Hl := fresh "Hl" in
                let Hw' := fresh "Hw'" in
                destruct (debug_leave dbg trc p (v, ws, err) (at_call wb))
                  as (w' & Hl & Hw');
                exists w';
                split; [eapply only_logged_trans; eassumption|];
                split; [exact Hl|eapply only_logged_trans; eassumption]
            end
          | exists wb; split; [eapply only_logged_trans; eassumption|];
            split; [reflexivity|apply only_logged_refl] ]
      end
  end.

Lemma DebugAPI_LabelNames_transparent (d : promclient.DebugAPI) (ctx : Context) :
  transparent (promclient.DebugAPI_LabelNames d ctx)
    (promclient.LabelNames (promclient.DebugAPI_API d) ctx).
Proof. unfold promclient.DebugAPI_LabelNames. debug_transparent. Qed.

Lemma DebugAPI_LabelValues_transparent (d : promclient.DebugAPI) (ctx : Context)
    (label : string) :
  transparent (promclient.DebugAPI_LabelValues d ctx label)
    (promclient.LabelValues (promclient.DebugAPI_API d) ctx label).
Proof. unfold promclient.DebugAPI_LabelValues. debug_transparent. Qed.

Lemma DebugAPI_Query_transparent (d : promclient.DebugAPI) (ctx : Context)
    (query : string) (ts : time_Time) :
  transparent (promclient.DebugAPI_Query d ctx query ts)
    (promclient.Query (promclient.DebugAPI_API d) ctx query ts).
Proof. unfold promclient.DebugAPI_Query. debug_transparent. Qed.

Lemma DebugAPI_QueryRange_transparent (d : promclient.DebugAPI) (ctx : Context)
    (query : string) (r : Range) :
  transparent (promclient.DebugAPI_QueryRange d ctx query r)
    (promclient.QueryRange (promclient.DebugAPI_API d) ctx query r).
Proof. unfold promclient.DebugAPI_QueryRange. debug_transparent. Qed.

Lemma DebugAPI_Series_transparent (d : promclient.DebugAPI) (ctx : Context)
    (matches : list string) (startTime endTime : time_Time) :
  transparent (promclient.DebugAPI_Series d ctx matches startTime endTime)
    (promclient.Series (promclient.DebugAPI_API d) ctx matches startTime endTime).
Proof. unfold promclient.DebugAPI_Series. debug_transparent. Qed.

Lemma DebugAPI_GetValue_transparent (d : promclient.DebugAPI) (ctx : Context)
    (start_ end_ : time_Time) (matchers : list Matcher) :
  transparent (promclient.DebugAPI_GetValue d ctx start_ end_ matchers)
    (promclient.GetValue (promclient.DebugAPI_API d) ctx start_ end_ matchers).
Proof. unfold promclient.DebugAPI_GetValue. debug_transparent. Qed.

(** ** The adapter on the metadata path *)

Lemma for_each_label_samples (labelsets : list LabelSet) :
  promclient.for_each promclient.iterator_of_sample (label_sample <$> labelsets)
  = Returned ((fun labelset => promclient.NewSeriesIterator labelset []) <$> labelsets).
Proof.
  induction labelsets as [|l rest IH]; [reflexivity|].
  rewrite !fmap_cons. cbn [promclient.for_each]. rewrite IH. reflexivity.
Qed.

Lemma Select_tail_label_samples (labelsets : list LabelSet) (warnings : storage_Warnings) :
  Select_tail (Some (ValVector (label_sample <$> labelsets))) warnings
  = Returned
      (Some (proxyquerier.NewSeriesSet
               ((fun labelset => series_of (promclient.NewSeriesIterator labelset []))
                  <$> labelsets)),
       warnings, None).
Proof.
  unfold Select_tail. cbn [promclient.IteratorsForValue].
  rewrite for_each_label_samples. now rewrite <- list_fmap_compose.
Qed.

(** ** Errors of the three methods *)

Lemma Select_error_is_root_cause (r : Remote) (h : proxyquerier.ProxyQuerier)
    (sp : option SelectParams) (matchers : list Matcher) (w : World)
    (set : option proxyquerier.SeriesSet) (ws : storage_Warnings) (e : error) :
  proxyquerier.Client h = RemoteClient r ->
  snd (promutil.MatcherToString matchers) = None ->
  fst (proxyquerier.Select h sp matchers w) = Returned (set, ws, Some e) ->
  root_cause e = Some e.
Proof.
  intros Hc Ht. destruct (promutil.MatcherToString matchers) as [s t] eqn:Hs.
  simpl in Ht. subst t. destruct sp as [p|].
  - destruct (Select_data_run h p matchers w) as (w' & -> & _).
    rewrite Hc, RemoteClient_GetValue_calls. cbn [fst].
    destruct (r_GetValue _ _ _ _ _ _) as [[v ws'] [e'|]]; simpl.
    + intros [= _ _ H]. exact (root_cause_idem _ _ H).
    + unfold Select_tail. destruct (promclient.IteratorsForValue v); discriminate.
  - destruct (Select_metadata_run h matchers w s Hs) as (w' & -> & _).
    rewrite Hc, RemoteClient_Series_calls. cbn [fst].
    destruct (r_Series _ _ _ _ _ _) as [[v ws'] [e'|]]; simpl.
    + intros [= _ _ H]. exact (root_cause_idem _ _ H).
    + rewrite Select_tail_label_samples. discriminate.
Qed.

Lemma LabelValues_error_is_root_cause (h : proxyquerier.ProxyQuerier) (name : string)
    (w : World) (v : list string) (ws : api_Warnings) (e : error) :
  fst (promclient.LabelValues (proxyquerier.Client h) (proxyquerier.Ctx h) name
         (at_call w)) = Returned (v, ws, Some e) ->
  fst (proxyquerier.LabelValues h name w)
  = Returned ([], promutil.WarningsConvert ws, errors_Cause (Some e)).
Proof.
  intros H. destruct (LabelValues_run h name w) as (w' & -> & _).
  cbn [fst]. now rewrite H.
Qed.

Lemma LabelNames_error_unchanged (h : proxyquerier.ProxyQuerier) (w : World)
    (v : list string) (ws : api_Warnings) (err : option error) :
  fst (promclient.LabelNames (proxyquerier.Client h) (proxyquerier.Ctx h) (at_call w))
  = Returned (v, ws, err) ->
  fst (proxyquerier.LabelNames h w) = Returned (v, promutil.WarningsConvert ws, err).
Proof.
  intros H. destruct (LabelNames_run h w) as (w' & -> & _).
  cbn [fst]. now rewrite H.
Qed.

(** ** The calls that reach the remote client *)

Lemma only_logged_calls (w w' : World) : only_logged w w' -> calls w' = calls w.
Proof. intros (_ & _ & H & _). exact H. Qed.

Lemma Select_data_calls (r : Remote) (h : proxyquerier.ProxyQuerier)
    (p : SelectParams) (matchers : list Matcher) (w : World) :
  proxyquerier.Client h = RemoteClient r ->
  calls (snd (proxyquerier.Select h (Some p) matchers w))
  = calls w ++ [CallGetValue (proxyquerier.Ctx h) (timestamp_Time (sp_Start p))
                  (timestamp_Time (sp_End p)) matchers].
Proof.
  intros Hc. destruct (Select_data_run h p matchers w) as (w' & -> & Hw).
  cbn [snd]. rewrite (only_logged_calls _ _ Hw).
  rewrite Hc, RemoteClient_GetValue_calls. reflexivity.
Qed.

Lemma Select_metadata_calls (r : Remote) (h : proxyquerier.ProxyQuerier)
    (matchers : list Matcher) (w : World) :
  proxyquerier.Client h = RemoteClient r ->
  calls (snd (proxyquerier.Select h None matchers w))
  = calls w ++
    match promutil.MatcherToString matchers with
    | (matcherString, None) =>
        [CallSeries (proxyquerier.Ctx h) [matcherString] (proxyquerier.Start h)
           (proxyquerier.End_ h)]
    | (_, Some _) => []
    end.
Proof.
  intros Hc. destruct (promutil.MatcherToString matchers) as [s [e|]] eqn:Hs.
  - destruct (Select_untranslatable_run h matchers w s e Hs) as (w' & -> & Hw).
    cbn [snd]. rewrite (only_logged_calls _ _ Hw). now rewrite app_nil_r.
  - destruct (Select_metadata_run h matchers w s Hs) as (w' & -> & Hw).
    cbn [snd]. rewrite (only_logged_calls _ _ Hw).
    rewrite Hc, RemoteClient_Series_calls. reflexivity.
Qed.

(** ** The decorator over the remote client *)

Lemma transparent_calls {A} (decorated wrapped : M A) (c : Call) :
  transparent decorated wrapped ->
  (forall w, calls (snd (wrapped w)) = calls w ++ [c]) ->
  forall w, calls (snd (decorated w)) = calls w ++ [c].
Proof.
  intros Ht Hc w. destruct (Ht w) as (w1 & w' & H1 & -> & H2).
  cbn [snd]. rewrite (only_logged_calls _ _ H2), Hc.
  now rewrite (only_logged_calls _ _ H1).
Qed.

(** Decorating the remote client changes nothing in what reaches it: the
    same single call, with the arguments as given. *)
Lemma DebugAPI_forwards_arguments (r : Remote) (prefix : string) (ctx : Context)
    (start_ end_ : time_Time) (matchers : list Matcher) (matches : list string)
    (w : World) :
  let d := {| promclient.DebugAPI_API := RemoteClient r;
              promclient.PrefixMessage := prefix |} in
  calls (snd (promclient.DebugAPI_GetValue d ctx start_ end_ matchers w))
  = calls w ++ [CallGetValue ctx start_ end_ matchers]
  /\ calls (snd (promclient.DebugAPI_Series d ctx matches start_ end_ w))
     = calls w ++ [CallSeries ctx matches start_ end_].
Proof.
  intros d. split.
  - apply (transparent_calls _ _ _ (DebugAPI_GetValue_transparent d ctx start_ end_ matchers)).
    intros w0. reflexivity.
  - apply (transparent_calls _ _ _ (DebugAPI_Series_transparent d ctx matches start_ end_)).
    intros w0. reflexivity.
Qed.

(** * The claims *)

(** C1: when [Select] is given a SelectRequest with start [T1] and end
    [T2], the one call that reaches the remote client is [GetValue] with
    the times of [T1] and [T2] (which read back as exactly [T1] and [T2])
    and the matchers as given; whatever window the querier was built with
    does not appear in it. *)
Theorem Select_data_call_gets_request_window
    (r : Remote) (ctx : Context) (start end_ : time_Time)
    (cfg : option proxyquerier.PromxyConfig) (p : SelectParams)
    (matchers : list Matcher) (w : World) :
  let h := {| proxyquerier.Ctx := ctx; proxyquerier.Start := start;
              proxyquerier.End_ := end_; proxyquerier.Client := RemoteClient r;
              proxyquerier.Cfg := cfg |} in
  calls (snd (proxyquerier.Select h (Some p) matchers w))
  = calls w ++ [CallGetValue ctx (timestamp_Time (sp_Start p))
                  (timestamp_Time (sp_End p)) matchers]
  /\ timestamp_FromTime (timestamp_Time (sp_Start p)) = sp_Start p
  /\ timestamp_FromTime (timestamp_Time (sp_End p)) = sp_End p.
Proof.
  intros h. split; [|split; apply timestamp_FromTime_Time].
  apply (Select_data_calls r h p matchers w). reflexivity.
Qed.

(** C2: when [Select] is given no SelectRequest, the call that reaches the
    remote client is [Series] with the querier's own [Start] and [End] as
    its bounds (and no call at all when the matchers cannot be
    translated). *)
Theorem Select_metadata_call_gets_querier_window
    (r : Remote) (ctx : Context) (start end_ : time_Time)
    (cfg : option proxyquerier.PromxyConfig)
    (matchers : list Matcher) (w : World) :
  let h := {| proxyquerier.Ctx := ctx; proxyquerier.Start := start;
              proxyquerier.End_ := end_; proxyquerier.Client := RemoteClient r;
              proxyquerier.Cfg := cfg |} in
  exists sent,
    calls (snd (proxyquerier.Select h None matchers w)) = calls w ++ sent
    /\ Forall (fun c => exists selectors, c = CallSeries ctx selectors start end_) sent
    /\ length sent = match snd (promutil.MatcherToString matchers) with
                     | Some _ => 0%nat
                     | None => 1%nat
                     end.
Proof.
  intros h. pose proof (Select_metadata_calls r h matchers w eq_refl) as H.
  destruct (promutil.MatcherToString matchers) as [s [e|]]; eexists;
    (split; [exact H|]); split; auto.
  constructor; [|constructor]. eexists; reflexivity.
Qed.

(** C3: when the remote call of [Select] ([Series] without a
    SelectRequest, [GetValue] with one) returns an error together with
    warnings, [Select] returns the converted warnings next to the error as
    it returns it, which is [errors.Cause] of the remote error; no error
    makes it drop them. *)
Theorem Select_returns_warnings_with_error
    (h : proxyquerier.ProxyQuerier) (matchers : list Matcher) (w : World) :
  (forall matcherString labelsets ws e,
      promutil.MatcherToString matchers = (matcherString, None) ->
      fst (promclient.Series (proxyquerier.Client h) (proxyquerier.Ctx h)
             [matcherString] (proxyquerier.Start h) (proxyquerier.End_ h)
             (at_call w)) = Returned (labelsets, ws, Some e) ->
      fst (proxyquerier.Select h None matchers w)
      = Returned (None, promutil.WarningsConvert ws, errors_Cause (Some e)))
  /\ (forall p result ws e,
      fst (promclient.GetValue (proxyquerier.Client h) (proxyquerier.Ctx h)
             (timestamp_Time (sp_Start p)) (timestamp_Time (sp_End p)) matchers
             (at_call w)) = Returned (result, ws, Some e) ->
      fst (proxyquerier.Select h (Some p) matchers w)
      = Returned (None, promutil.WarningsConvert ws, errors_Cause (Some e))).
Proof.
  split.
  - intros s labelsets ws e Hs Hr.
    destruct (Select_metadata_run h matchers w s Hs) as (w' & -> & _).
    cbn [fst]. now rewrite Hr.
  - intros p result ws e Hr.
    destruct (Select_data_run h p matchers w) as (w' & -> & _).
    cbn [fst]. now rewrite Hr.
Qed.

Lemma Select_returns_warnings_with_error_witness :
  fst (proxyquerier.Select (example.querier example.failing) None
         [example.job_api] example.world)
  = Returned (None, [errors_New "first"; errors_New "second"], Some example.root)
  /\ fst (proxyquerier.Select (example.querier example.failing)
            (Some example.params) [example.job_api] example.world)
     = Returned (None, [errors_New "first"; errors_New "second"], Some example.root).
Proof.
  split.
  - exact (proj1 (Select_returns_warnings_with_error
                    (example.querier example.failing) [example.job_api]
                    example.world)
             (fst (promutil.MatcherToString [example.job_api])) []
             ["first"; "second"] example.wrapped eq_refl eq_refl).
  - exact (proj2 (Select_returns_warnings_with_error
                    (example.querier example.failing) [example.job_api]
                    example.world)
             example.params None ["first"; "second"] example.wrapped eq_refl).
Defined.

(** Also when the remote error has a [Cause()] that gives nil, so that
    [errors.Cause] makes nil of it, the warnings come back. *)
Lemma Select_keeps_warnings_without_cause
    (h : proxyquerier.ProxyQuerier) (p : SelectParams) (matchers : list Matcher)
    (w : World) (result : option Value) (ws : api_Warnings) (e : error) :
  root_cause e = None ->
  fst (promclient.GetValue (proxyquerier.Client h) (proxyquerier.Ctx h)
         (timestamp_Time (sp_Start p)) (timestamp_Time (sp_End p)) matchers
         (at_call w)) = Returned (result, ws, Some e) ->
  fst (proxyquerier.Select h (Some p) matchers w)
  = Returned (None, promutil.WarningsConvert ws, None).
Proof.
  intros Hc Hr. destruct (Select_data_run h p matchers w) as (w' & -> & _).
  cbn [fst]. rewrite Hr. cbn [Select_after errors_Cause]. now rewrite Hc.
Qed.

(** C4, at the input where the code departs from it: [LabelNames] hands
    back the remote client's error with both layers of wrapping still on
    it, where [LabelValues] and [Select], given the same error, return its
    root cause. *)
Theorem LabelNames_keeps_error_wrapping :
  fst (proxyquerier.LabelNames (example.querier example.failing) example.world)
  = Returned ([], [errors_New "first"; errors_New "second"], Some example.wrapped)
  /\ example.wrapped <> example.root
  /\ errors_Cause (Some example.wrapped) = Some example.root
  /\ fst (proxyquerier.LabelValues (example.querier example.failing) "job"
            example.world)
     = Returned ([], [errors_New "first"; errors_New "second"], Some example.root)
  /\ fst (proxyquerier.Select (example.querier example.failing) None
            [example.job_api] example.world)
     = Returned (None, [errors_New "first"; errors_New "second"], Some example.root).
Proof.
  split; [reflexivity|]. split; [discriminate|].
  split; [reflexivity|]. split; reflexivity.
Qed.

(** C5: when [Select] without a SelectRequest succeeds, its SeriesSet has
    one Series for each label set that the discovery call returned, in that
    order and with that label set, and the iterator of each of them yields
    no point. *)
Theorem Select_metadata_series_are_label_only
    (h : proxyquerier.ProxyQuerier) (matchers : list Matcher) (w : World)
    (matcherString : string) (labelsets : list LabelSet) (ws : api_Warnings) :
  promutil.MatcherToString matchers = (matcherString, None) ->
  fst (promclient.Series (proxyquerier.Client h) (proxyquerier.Ctx h)
         [matcherString] (proxyquerier.Start h) (proxyquerier.End_ h)
         (at_call w)) = Returned (labelsets, ws, None) ->
  exists set,
    fst (proxyquerier.Select h None matchers w)
    = Returned (Some set, promutil.WarningsConvert ws, None)
    /\ SeriesSet_labels set = Some <$> labelsets
    /\ Forall (fun it => exists i, it = Some i
                           /\ promclient.points i = []
                           /\ fst (promclient.Next i) = false)
         (SeriesSet_iterators set).
Proof.
  intros Hs Hr.
  destruct (Select_metadata_run h matchers w matcherString Hs) as (w' & -> & _).
  cbn [fst]. rewrite Hr. cbn [Select_after].
  rewrite Select_tail_label_samples.
  eexists. split; [reflexivity|].
  unfold SeriesSet_labels, SeriesSet_iterators, proxyquerier.NewSeriesSet.
  cbn [proxyquerier.set_series].
  rewrite <- !list_fmap_compose. split.
  - apply list_fmap_ext. intros i l _. reflexivity.
  - apply Forall_fmap, Forall_forall. intros l _. simpl.
    eexists. split; [reflexivity|]. split; reflexivity.
Qed.

Lemma Select_metadata_series_are_label_only_witness :
  exists set,
    fst (proxyquerier.Select (example.querier example.healthy) None
           [example.job_api] example.world)
    = Returned (Some set, [errors_New "slow"], None)
    /\ SeriesSet_labels set = [Some example.api_a; Some example.api_b]
    /\ Forall (fun it => exists i, it = Some i
                           /\ promclient.points i = []
                           /\ fst (promclient.Next i) = false)
         (SeriesSet_iterators set).
Proof.
  exact (Select_metadata_series_are_label_only
           (example.querier example.healthy) [example.job_api] example.world
           (fst (promutil.MatcherToString [example.job_api]))
           [example.api_a; example.api_b] ["slow"] eq_refl eq_refl).
Defined.

(** C6: whenever [Select] returns a non-nil error, the SeriesSet it
    returns with it is nil. *)
Theorem Select_error_means_nil_set
    (h : proxyquerier.ProxyQuerier) (selectParams : option SelectParams)
    (matchers : list Matcher) (w : World)
    (set : option proxyquerier.SeriesSet) (warnings : storage_Warnings)
    (e : error) :
  fst (proxyquerier.Select h selectParams matchers w)
  = Returned (set, warnings, Some e) ->
  set = None.
Proof.
  destruct selectParams as [p|].
  - destruct (Select_data_run h p matchers w) as (w' & -> & _). cbn [fst].
    destruct (fst _) as [[[v ws] [e'|]]|r]; cbn [Select_after].
    + intros [= <- _ _]. reflexivity.
    + unfold Select_tail.
      destruct (promclient.IteratorsForValue v); discriminate.
    + discriminate.
  - destruct (promutil.MatcherToString matchers) as [s [e'|]] eqn:Hs.
    + destruct (Select_untranslatable_run h matchers w s e' Hs) as (w' & -> & _).
      cbn [fst]. intros [= <- _ _]. reflexivity.
    + destruct (Select_metadata_run h matchers w s Hs) as (w' & -> & _).
      cbn [fst].
      destruct (fst _) as [[[v ws] [e'|]]|r]; cbn [Select_after].
      * intros [= <- _ _]. reflexivity.
      * rewrite Select_tail_label_samples. discriminate.
      * discriminate.
Qed.

Lemma Select_error_means_nil_set_witness :
  exists set warnings e,
    fst (proxyquerier.Select (example.querier example.failing)
           (Some example.params) [example.job_api] example.world)
    = Returned (set, warnings, Some e)
    /\ set = None.
Proof.
  exists None, [errors_New "first"; errors_New "second"], example.root.
  split; [reflexivity|].
  exact (Select_error_means_nil_set (example.querier example.failing)
           (Some example.params) [example.job_api] example.world None
           [errors_New "first"; errors_New "second"] example.root eq_refl).
Defined.

(** C7: each of the six methods of [DebugAPI] is transparent for the
    method of the wrapped API that it forwards to, called with the very
    arguments it was given: it returns (or panics with) what that call
    returns, and apart from that call it only logs. *)
Theorem DebugAPI_is_transparent (d : promclient.DebugAPI) :
  (forall ctx,
      transparent (promclient.DebugAPI_LabelNames d ctx)
        (promclient.LabelNames (promclient.DebugAPI_API d) ctx))
  /\ (forall ctx label,
      transparent (promclient.DebugAPI_LabelValues d ctx label)
        (promclient.LabelValues (promclient.DebugAPI_API d) ctx label))
  /\ (forall ctx query ts,
      transparent (promclient.DebugAPI_Query d ctx query ts)
        (promclient.Query (promclient.DebugAPI_API d) ctx query ts))
  /\ (forall ctx query r,
      transparent (promclient.DebugAPI_QueryRange d ctx query r)
        (promclient.QueryRange (promclient.DebugAPI_API d) ctx query r))
  /\ (forall ctx matches startTime endTime,
      transparent (promclient.DebugAPI_Series d ctx matches startTime endTime)
        (promclient.Series (promclient.DebugAPI_API d) ctx matches startTime endTime))
  /\ (forall ctx start_ end_ matchers,
      transparent (promclient.DebugAPI_GetValue d ctx start_ end_ matchers)
        (promclient.GetValue (promclient.DebugAPI_API d) ctx start_ end_ matchers)).
Proof.
  repeat split; intros.
  - apply DebugAPI_LabelNames_transparent.
  - apply DebugAPI_LabelValues_transparent.
  - apply DebugAPI_Query_transparent.
  - apply DebugAPI_QueryRange_transparent.
  - apply DebugAPI_Series_transparent.
  - apply DebugAPI_GetValue_transparent.
Qed.

(** C8: the conversion that the querier applies to the remote warnings
    keeps their number and their order and turns the i-th warning into the
    engine warning with that text, so the remote warnings can be read back
    from its result; [LabelNames] and [LabelValues] return exactly this
    conversion of the warnings that the remote call gave. *)
Theorem WarningsConvert_is_elementwise
    (r : Remote) (ctx : Context) (start end_ : time_Time)
    (cfg : option proxyquerier.PromxyConfig) (name : string) (w : World) :
  let h := {| proxyquerier.Ctx := ctx; proxyquerier.Start := start;
              proxyquerier.End_ := end_; proxyquerier.Client := RemoteClient r;
              proxyquerier.Cfg := cfg |} in
  (forall ws : api_Warnings,
      length (promutil.WarningsConvert ws) = length ws
      /\ (forall i : nat, promutil.WarningsConvert ws !! i = errors_New <$> ws !! i)
      /\ error_Error <$> promutil.WarningsConvert ws = ws)
  /\ warnings_of (fst (proxyquerier.LabelNames h w))
     = Some (promutil.WarningsConvert (r_LabelNames r ctx (at_call w)).1.2)
  /\ warnings_of (fst (proxyquerier.LabelValues h name w))
     = Some (promutil.WarningsConvert (r_LabelValues r ctx name (at_call w)).1.2).
Proof.
  intros h. split; [|split].
  - intros ws. unfold promutil.WarningsConvert. split; [apply length_fmap|].
    split; [intros i; apply list_lookup_fmap|].
    rewrite <- list_fmap_compose. induction ws as [|x ws IH]; [reflexivity|].
    rewrite fmap_cons. f_equal. exact IH.
  - destruct (LabelNames_run h w) as (w' & -> & _). cbn [fst].
    unfold h at 1. cbn [proxyquerier.Client].
    rewrite RemoteClient_LabelNames_calls. cbn [fst].
    destruct (r_LabelNames r _ _) as [[v ws] err]. reflexivity.
  - destruct (LabelValues_run h name w) as (w' & -> & _). cbn [fst].
    unfold h at 1. cbn [proxyquerier.Client].
    rewrite RemoteClient_LabelValues_calls. cbn [fst].
    destruct (r_LabelValues r _ _ _) as [[v ws] [e|]]; reflexivity.
Qed.

(** C9: when [Select] is given no SelectRequest and the matchers can be
    translated, the remote [Series] call gets a selector list with one
    element, the single string that [MatcherToString] makes of the whole
    matcher list. *)
Theorem Select_sends_one_combined_selector
    (r : Remote) (ctx : Context) (start end_ : time_Time)
    (cfg : option proxyquerier.PromxyConfig)
    (matchers : list Matcher) (w : World) :
  let h := {| proxyquerier.Ctx := ctx; proxyquerier.Start := start;
              proxyquerier.End_ := end_; proxyquerier.Client := RemoteClient r;
              proxyquerier.Cfg := cfg |} in
  snd (promutil.MatcherToString matchers) = None ->
  selectors_sent (calls (snd (proxyquerier.Select h None matchers w)))
  = selectors_sent (calls w) ++ [[fst (promutil.MatcherToString matchers)]].
Proof.
  intros h Ht. rewrite (Select_metadata_calls r h matchers w eq_refl).
  destruct (promutil.MatcherToString matchers) as [s t]. simpl in Ht. subst t.
  unfold selectors_sent. rewrite omap_app. reflexivity.
Qed.

Lemma Select_sends_one_combined_selector_witness :
  let q := String promutil.quote_char EmptyString in
  selectors_sent
    (calls (snd (proxyquerier.Select (example.querier example.healthy) None
                   [example.job_api; example.env_not_dev] example.world)))
  = [] ++ [["{job=" +:+ q +:+ "api" +:+ q +:+ ", env!=" +:+ q +:+ "dev" +:+ q +:+ "}"]].
Proof.
  exact (Select_sends_one_combined_selector example.healthy {| ctx_id := 7 |}
           (timestamp_Time 1000) (timestamp_Time 2000) None
           [example.job_api; example.env_not_dev] example.world eq_refl).
Defined.

(** C10: on the metadata path the Vector that [Select] builds has one
    Sample for each discovered label set, in order, with [Metric] set to
    that label set and [Value] and [Timestamp] at zero, and that Vector is
    what the rest of [Select] works on. *)
Theorem Select_synthesizes_zero_samples
    (h : proxyquerier.ProxyQuerier) (matchers : list Matcher) (w : World)
    (matcherString : string) (labelsets : list LabelSet) (ws : api_Warnings) :
  promutil.MatcherToString matchers = (matcherString, None) ->
  fst (promclient.Series (proxyquerier.Client h) (proxyquerier.Ctx h)
         [matcherString] (proxyquerier.Start h) (proxyquerier.End_ h)
         (at_call w)) = Returned (labelsets, ws, None) ->
  exists retVector : Vector,
    proxyquerier.Select_retVector labelsets = Returned retVector
    /\ length retVector = length labelsets
    /\ (forall i : nat,
          retVector !! i
          = (fun labelset =>
               Some {| Sample_Metric := labelset; Sample_Value := 0;
                       Sample_Timestamp := 0 |}) <$> labelsets !! i)
    /\ fst (proxyquerier.Select h None matchers w)
       = Select_tail (Some (ValVector retVector)) (promutil.WarningsConvert ws).
Proof.
  intros Hs Hr. exists (label_sample <$> labelsets).
  split; [apply Select_retVector_eq|].
  split; [apply length_fmap|].
  split; [intros i; apply list_lookup_fmap|].
  destruct (Select_metadata_run h matchers w matcherString Hs) as (w' & -> & _).
  cbn [fst]. now rewrite Hr.
Qed.

Lemma Select_synthesizes_zero_samples_witness :
  exists retVector : Vector,
    proxyquerier.Select_retVector [example.api_a; example.api_b] = Returned retVector
    /\ length retVector = 2%nat
    /\ (forall i : nat,
          retVector !! i
          = (fun labelset =>
               Some {| Sample_Metric := labelset; Sample_Value := 0;
                       Sample_Timestamp := 0 |})
              <$> [example.api_a; example.api_b] !! i)
    /\ fst (proxyquerier.Select (example.querier example.healthy) None
              [example.job_api] example.world)
       = Select_tail (Some (ValVector retVector)) [errors_New "slow"].
Proof.
  exact (Select_synthesizes_zero_samples
           (example.querier example.healthy) [example.job_api] example.world
           (fst (promutil.MatcherToString [example.job_api]))
           [example.api_a; example.api_b] ["slow"] eq_refl eq_refl).
Defined.

(** * Further properties *)

(** ** The whole effect of the querier methods *)

Lemma deferred_log_exact (fields : time_Time -> Fields) (msg : string) (w : World) :
  (let* now := time_Now in logrus_Debug (fields now) msg) w
  = (Returned tt,
     {| wall := wall w; reads := S (reads w); level := level w;
        entries := entries w ++ debug_line (level w) (fields (wall w (reads w))) msg;
        calls := calls w |}).
Proof.
  unfold logrus_Debug, logrus_Log, bind, time_Now, logrus_GetLevel, emit, ret,
    debug_line.
  cbn [level reads wall entries calls].
  destruct (level_num DebugLevel <=? level_num (level w)); [reflexivity|].
  now rewrite app_nil_r.
Qed.

Lemma defer_exact {A} (d : M unit) (body : M A) (w w' : World) :
  d (snd (body w)) = (Returned tt, w') ->
  defer d body w = (fst (body w), w').
Proof. unfold defer. destruct (body w) as [o w1]. simpl. now intros ->. Qed.

Ltac step := cbv beta iota; cbn [snd fst].

(** Puts the world that the deferred log line leaves in place of the world
    of a method, and asks for the world that the body leaves. *)
Ltac enter_method w body_world :=
  unfold bind at 1; destruct (time_Now_logged w) as [-> _];
  match goal with
  | |- context [@defer ?A ?d ?b ?x] =>
      rewrite (@defer_exact A d b x _ (deferred_log_exact _ _ _));
      assert (Hb : snd (b x) = body_world);
      [ | cbn [snd]; rewrite Hb; reflexivity ]
  end.

(** X1: with the remote client, [Select] changes the world in exactly this
    way, on every path (early return, error, success or panic): the clock
    is read twice, one Debug entry named Select with the request, the
    matchers and the time between the two readings is written if the
    level allows it, and the one remote call of the path is recorded. *)
Theorem Select_final_world
    (r : Remote) (ctx : Context) (start end_ : time_Time)
    (cfg : option proxyquerier.PromxyConfig)
    (selectParams : option SelectParams) (matchers : list Matcher) (w : World) :
  let h := {| proxyquerier.Ctx := ctx; proxyquerier.Start := start;
              proxyquerier.End_ := end_; proxyquerier.Client := RemoteClient r;
              proxyquerier.Cfg := cfg |} in
  snd (proxyquerier.Select h selectParams matchers w)
  = {| wall := wall w; reads := S (S (reads w)); level := level w;
       entries :=
         entries w ++
         debug_line (level w)
           (list_to_map [("selectParams", FSelectParams selectParams);
                         ("matchers", FMatchers matchers);
                         ("took", FDuration (took_in w))])
           "Select";
       calls := calls w ++ Select_sent h selectParams matchers |}.
Proof.
  intros h. unfold proxyquerier.Select.
  enter_method w
    {| wall := wall w; reads := S (reads w); level := level w;
       entries := entries w;
       calls := calls w ++ Select_sent h selectParams matchers |}.
  unfold Select_sent.
  cbn [proxyquerier.Client proxyquerier.Ctx proxyquerier.Start proxyquerier.End_ h
       RemoteClient promclient.GetValue promclient.Series].
  unfold bind, ret, lift, ask, record_call, at_call, time_Now. step.
  destruct selectParams as [p|].
  - destruct (r_GetValue r _ _ _ _ _) as [[v ws] [e|]]; step; [reflexivity|].
    destruct (promclient.IteratorsForValue v) as [its|reason]; step; [|reflexivity].
    rewrite Select_series_eq. step. reflexivity.
  - destruct (promutil.MatcherToString matchers) as [s [e|]]; step.
    { cbn [wall reads level entries calls]. now rewrite app_nil_r. }
    destruct (r_Series r _ _ _ _ _) as [[v ws] [e|]]; step; [reflexivity|].
    rewrite Select_retVector_eq. step.
    destruct (promclient.IteratorsForValue _) as [its|reason]; step; [|reflexivity].
    rewrite Select_series_eq. step. reflexivity.
Qed.

(** X2: with the remote client, [LabelValues] and [LabelNames] each read
    the clock twice, write one Debug entry under their own name if the
    level allows it, and issue exactly one remote call: the method of the
    same name, with the querier's context (and the label name as given). *)
Theorem LabelValues_LabelNames_final_world
    (r : Remote) (ctx : Context) (start end_ : time_Time)
    (cfg : option proxyquerier.PromxyConfig) (name : string) (w : World) :
  let h := {| proxyquerier.Ctx := ctx; proxyquerier.Start := start;
              proxyquerier.End_ := end_; proxyquerier.Client := RemoteClient r;
              proxyquerier.Cfg := cfg |} in
  snd (proxyquerier.LabelValues h name w)
  = {| wall := wall w; reads := S (S (reads w)); level := level w;
       entries :=
         entries w ++
         debug_line (level w)
           (list_to_map [("name", FString name);
                         ("took", FDuration (took_in w))])
           "LabelValues";
       calls := calls w ++ [CallLabelValues ctx name] |}
  /\ snd (proxyquerier.LabelNames h w)
     = {| wall := wall w; reads := S (S (reads w)); level := level w;
          entries :=
            entries w ++
            debug_line (level w)
              (list_to_map [("took", FDuration (took_in w))]) "LabelNames";
          calls := calls w ++ [CallLabelNames ctx] |}.
Proof.
  intros h. split.
  - unfold proxyquerier.LabelValues.
    enter_method w
      {| wall := wall w; reads := S (reads w); level := level w;
         entries := entries w; calls := calls w ++ [CallLabelValues ctx name] |}.
    cbn [proxyquerier.Client proxyquerier.Ctx h RemoteClient promclient.LabelValues].
    unfold bind, ret, lift, ask, record_call, at_call, time_Now. step.
    destruct (r_LabelValues r _ _ _) as [[v ws] [e|]]; step; [reflexivity|].
    rewrite range_assign_make. step. reflexivity.
  - unfold proxyquerier.LabelNames.
    enter_method w
      {| wall := wall w; reads := S (reads w); level := level w;
         entries := entries w; calls := calls w ++ [CallLabelNames ctx] |}.
    cbn [proxyquerier.Client proxyquerier.Ctx h RemoteClient promclient.LabelNames].
    unfold bind, ret, lift, ask, record_call, at_call, time_Now. step.
    destruct (r_LabelNames r _ _) as [[v ws] err]; step. reflexivity.
Qed.

(** X3: for any client, when the remote [LabelValues] call succeeds,
    [LabelValues] returns its values, as many and in the same order, with
    the converted warnings and no error. *)
Theorem LabelValues_returns_remote_values
    (h : proxyquerier.ProxyQuerier) (name : string) (w : World)
    (result : list string) (ws : api_Warnings) :
  fst (promclient.LabelValues (proxyquerier.Client h) (proxyquerier.Ctx h) name
         (at_call w)) = Returned (result, ws, None) ->
  fst (proxyquerier.LabelValues h name w)
  = Returned (result, promutil.WarningsConvert ws, None).
Proof.
  intros H. destruct (LabelValues_run h name w) as (w' & -> & _).
  cbn [fst]. now rewrite H.
Qed.

Lemma LabelValues_returns_remote_values_witness :
  fst (proxyquerier.LabelValues (example.querier example.healthy) "instance"
         example.world)
  = Returned (["a"; "b"], [errors_New "slow"], None).
Proof.
  exact (LabelValues_returns_remote_values (example.querier example.healthy)
           "instance" example.world ["a"; "b"] ["slow"] eq_refl).
Defined.

(** X4: for any client, when the remote [LabelValues] call fails,
    [LabelValues] returns no values (whatever values came with the
    failure), the converted warnings and the root cause of the error. *)
Theorem LabelValues_failure_drops_values
    (h : proxyquerier.ProxyQuerier) (name : string) (w : World)
    (result : list string) (ws : api_Warnings) (e : error) :
  fst (promclient.LabelValues (proxyquerier.Client h) (proxyquerier.Ctx h) name
         (at_call w)) = Returned (result, ws, Some e) ->
  fst (proxyquerier.LabelValues h name w)
  = Returned ([], promutil.WarningsConvert ws, errors_Cause (Some e)).
Proof.
  intros H. destruct (LabelValues_run h name w) as (w' & -> & _).
  cbn [fst]. now rewrite H.
Qed.

Lemma LabelValues_failure_drops_values_witness :
  fst (proxyquerier.LabelValues (example.querier example.failing) "instance"
         example.world)
  = Returned ([], [errors_New "first"; errors_New "second"], Some example.root).
Proof.
  exact (LabelValues_failure_drops_values (example.querier example.failing)
           "instance" example.world [] ["first"; "second"] example.wrapped eq_refl).
Defined.

(** X5: for any client, when the matchers cannot be translated, [Select]
    without a SelectRequest returns the translation error as it is, with no
    warnings and a nil SeriesSet, and the world differs only by logging: no
    client method is called. *)
Theorem Select_translation_failure
    (h : proxyquerier.ProxyQuerier) (matchers : list Matcher) (w : World)
    (s : string) (e : error) :
  promutil.MatcherToString matchers = (s, Some e) ->
  fst (proxyquerier.Select h None matchers w) = Returned (None, [], Some e)
  /\ only_logged w (snd (proxyquerier.Select h None matchers w)).
Proof.
  intros Hs.
  destruct (Select_untranslatable_run h matchers w s e Hs) as (w' & -> & Hw).
  split; [reflexivity|exact Hw].
Qed.

Lemma Select_translation_failure_witness :
  fst (proxyquerier.Select (example.querier example.healthy) None
         [example.job_api; example2.odd_matcher] example.world)
  = Returned (None, [], Some promutil.TranslationError)
  /\ only_logged example.world
       (snd (proxyquerier.Select (example.querier example.healthy) None
               [example.job_api; example2.odd_matcher] example.world)).
Proof.
  exact (Select_translation_failure (example.querier example.healthy)
           [example.job_api; example2.odd_matcher] example.world ""
           promutil.TranslationError eq_refl).
Defined.

(** X6: for any client, when the remote [GetValue] call succeeds with
    [result], [Select] hands [result] to [IteratorsForValue]; if that
    returns iterators, the SeriesSet has one Series around each of them, in
    the same order, and comes with the converted warnings and no error; if
    it panics, so does [Select]. *)
Theorem Select_wraps_each_iterator
    (h : proxyquerier.ProxyQuerier) (p : SelectParams) (matchers : list Matcher)
    (w : World) (result : option Value) (ws : api_Warnings) :
  fst (promclient.GetValue (proxyquerier.Client h) (proxyquerier.Ctx h)
         (timestamp_Time (sp_Start p)) (timestamp_Time (sp_End p)) matchers
         (at_call w)) = Returned (result, ws, None) ->
  match promclient.IteratorsForValue result with
  | Returned iterators =>
      exists set,
        fst (proxyquerier.Select h (Some p) matchers w)
        = Returned (Some set, promutil.WarningsConvert ws, None)
        /\ SeriesSet_iterators set = Some <$> iterators
  | Panicked reason =>
      fst (proxyquerier.Select h (Some p) matchers w) = Panicked reason
  end.
Proof.
  intros Hr. destruct (Select_data_run h p matchers w) as (w' & -> & _).
  cbn [fst]. rewrite Hr. cbn [Select_after]. unfold Select_tail.
  destruct (promclient.IteratorsForValue result) as [its|reason]; [|reflexivity].
  eexists. split; [reflexivity|].
  unfold SeriesSet_iterators, proxyquerier.NewSeriesSet.
  cbn [proxyquerier.set_series]. rewrite <- list_fmap_compose.
  apply list_fmap_ext. intros i it _. reflexivity.
Qed.

Lemma Select_wraps_each_iterator_witness :
  exists set,
    fst (proxyquerier.Select (example.querier example.healthy)
           (Some example.params) [example.job_api] example.world)
    = Returned (Some set, [errors_New "slow"], None)
    /\ SeriesSet_iterators set
       = Some <$> [promclient.NewSeriesIterator example.api_a
                     (Stream_Values example.stream)].
Proof.
  exact (Select_wraps_each_iterator (example.querier example.healthy)
           example.params [example.job_api] example.world
           (Some (ValMatrix [Some example.stream])) ["slow"] eq_refl).
Defined.

(** ** What the decorator writes *)

Lemma DebugAPI_LabelNames_wrap (d : promclient.DebugAPI) ctx :
  promclient.DebugAPI_LabelNames d ctx
  = debug_wrap (promclient.PrefixMessage d)
      (list_to_map [("api", FString "LabelNames")]) FStrings
      (promclient.LabelNames (promclient.DebugAPI_API d) ctx).
Proof. reflexivity. Qed.

Lemma DebugAPI_LabelValues_wrap (d : promclient.DebugAPI) ctx label :
  promclient.DebugAPI_LabelValues d ctx label
  = debug_wrap (promclient.PrefixMessage d)
      (list_to_map [("api", FString "LabelValues"); ("label", FString label)])
      FStrings
      (promclient.LabelValues (promclient.DebugAPI_API d) ctx label).
Proof. reflexivity. Qed.

Lemma DebugAPI_Query_wrap (d : promclient.DebugAPI) ctx query ts :
  promclient.DebugAPI_Query d ctx query ts
  = debug_wrap (promclient.PrefixMessage d)
      (list_to_map [("api", FString "Query"); ("query", FString query);
                    ("ts", FTime ts)])
      FValue
      (promclient.Query (promclient.DebugAPI_API d) ctx query ts).
Proof. reflexivity. Qed.

Lemma DebugAPI_QueryRange_wrap (d : promclient.DebugAPI) ctx query r :
  promclient.DebugAPI_QueryRange d ctx query r
  = debug_wrap (promclient.PrefixMessage d)
      (list_to_map [("api", FString "QueryRange"); ("query", FString query);
                    ("r", FRange r)])
      FValue
      (promclient.QueryRange (promclient.DebugAPI_API d) ctx query r).
Proof. reflexivity. Qed.

Lemma DebugAPI_Series_wrap (d : promclient.DebugAPI) ctx matches startTime endTime :
  promclient.DebugAPI_Series d ctx matches startTime endTime
  = debug_wrap (promclient.PrefixMessage d)
      (list_to_map [("api", FString "Series"); ("matches", FStrings matches);
                    ("startTime", FTime startTime); ("endTime", FTime endTime)])
      FLabelSets
      (promclient.Series (promclient.DebugAPI_API d) ctx matches startTime endTime).
Proof. reflexivity. Qed.

Lemma DebugAPI_GetValue_wrap (d : promclient.DebugAPI) ctx start_ end_ matchers :
  promclient.DebugAPI_GetValue d ctx start_ end_ matchers
  = debug_wrap (promclient.PrefixMessage d)
      (list_to_map [("api", FString "GetValue"); ("start", FTime start_);
                    ("end", FTime end_); ("matchers", FMatchers matchers)])
      FValue
      (promclient.GetValue (promclient.DebugAPI_API d) ctx start_ end_ matchers).
Proof. reflexivity. Qed.

(** The fields a method starts with have none of the keys that the
    wrapper adds later. *)
Definition fresh_fields (fields : Fields) : Prop :=
  fields !! "took" = None /\ fields !! "value" = None
  /\ fields !! "warnings" = None /\ fields !! "error" = None.

Section Wrap.

Context {V : Type}.
Variable prefix : string.
Variable fields : Fields.
Variable value : V -> FieldValue.
Variable answer : World -> V * api_Warnings * option error.
Variable c : Call.

(** A method of the remote client: it answers and notes the call. *)
Let call : M (V * api_Warnings * option error) :=
  let* resp := ask answer in
  let* _ := record_call c in
  ret resp.

Ltac run_wrap :=
  unfold call, debug_wrap, logrus_Debug, logrus_Trace, logrus_Log, bind,
    logrus_GetLevel, time_Now, ask, record_call, ret, emit, took_in;
  cbn -[insert lookup time_Sub].

Lemma wrap_silent : silent_below_debug (debug_wrap prefix fields value call).
Proof.
  intros [wl rd lv es cs] Hl. cbn [level] in Hl.
  destruct lv; cbn in Hl; try lia; run_wrap;
    destruct (answer _) as [[v ws] err]; reflexivity.
Qed.

End Wrap.

(** For any wrapped call: a panic of the call leaves the wrapper at
    once. *)
Lemma wrap_panic {V} (prefix : string) (fields : Fields) (value : V -> FieldValue)
    (call : M (V * api_Warnings * option error)) :
  panic_skips_last_line (debug_wrap prefix fields value call) call.
Proof.
  intros w. unfold debug_wrap. unfold logrus_Debug at 1.
  destruct (logrus_Log_logged DebugLevel fields prefix w) as (wa & Ha & Hwa).
  exists (at_call wa). split.
  - eapply only_logged_trans; [exact Hwa|]. apply (time_Now_logged wa).
  - intros reason wb Hp. unfold bind at 1. rewrite Ha.
    unfold bind at 1. destruct (time_Now_logged wa) as [-> _].
    unfold bind at 1. rewrite Hp. reflexivity.
Qed.

Ltac run_around Hcall :=
  unfold wrote in *;
  unfold debug_wrap, logrus_Debug, logrus_Trace, logrus_Log, bind,
    logrus_GetLevel, time_Now, ret, emit;
  cbn -[insert lookup time_Sub] in Hcall |- *;
  rewrite Hcall; cbn -[insert lookup time_Sub]; reflexivity.

(** For any wrapped call: the two lines at the Debug level. *)
Lemma wrap_debug_around {V} (prefix : string) (fields : Fields)
    (value : V -> FieldValue) (call : M (V * api_Warnings * option error)) :
  fresh_fields fields ->
  debug_lines_around_call prefix (debug_wrap prefix fields value call) call.
Proof.
  intros (Ht & Hv & Hw & He) w Hl.
  exists {| e_level := DebugLevel; e_fields := fields; e_message := prefix |}.
  unfold no_payload. cbn [e_level e_message e_fields].
  do 4 (split; [auto|]).
  intros [[v ws] err] wb Hcall Hlb.
  destruct w as [wl rd lv es cs]. cbn [level] in Hl. subst lv.
  destruct wb as [wl' rd' lv' es' cs']. cbn [level] in Hlb. subst lv'.
  run_around Hcall.
Qed.

(** For any wrapped call: the two lines at the Trace level. *)
Lemma wrap_trace_around {V} (prefix : string) (fields : Fields)
    (value : V -> FieldValue) (call : M (V * api_Warnings * option error)) :
  fresh_fields fields ->
  trace_line_around_call prefix value (debug_wrap prefix fields value call) call.
Proof.
  intros (Ht & Hv & Hw & He) w Hl.
  exists {| e_level := DebugLevel; e_fields := fields; e_message := prefix |}.
  unfold no_payload. cbn [e_level e_message e_fields].
  do 4 (split; [auto|]).
  intros v ws err wb Hcall Hlb.
  destruct w as [wl rd lv es cs]. cbn [level] in Hl. subst lv.
  destruct wb as [wl' rd' lv' es' cs']. cbn [level] in Hlb. subst lv'.
  run_around Hcall.
Qed.

Ltac fresh_now := repeat split; reflexivity.

(** X7: below the Debug level none of the six methods of a [DebugAPI]
    around the remote client writes anything to the log. *)
Theorem DebugAPI_silent_below_debug (r : Remote) (prefix : string) :
  each_method (fun V value decorated wrapped => silent_below_debug decorated)
    {| promclient.DebugAPI_API := RemoteClient r;
       promclient.PrefixMessage := prefix |}.
Proof.
  repeat split; intros.
  - rewrite DebugAPI_LabelNames_wrap.
    apply (wrap_silent _ _ _ (r_LabelNames r ctx) (CallLabelNames ctx)).
  - rewrite DebugAPI_LabelValues_wrap.
    apply (wrap_silent _ _ _ (r_LabelValues r ctx label) (CallLabelValues ctx label)).
  - rewrite DebugAPI_Query_wrap.
    apply (wrap_silent _ _ _ (r_Query r ctx query ts) (CallQuery ctx query ts)).
  - rewrite DebugAPI_QueryRange_wrap.
    apply (wrap_silent _ _ _ (r_QueryRange r ctx query r0) (CallQueryRange ctx query r0)).
  - rewrite DebugAPI_Series_wrap.
    apply (wrap_silent _ _ _ (r_Series r ctx matches startTime endTime)
             (CallSeries ctx matches startTime endTime)).
  - rewrite DebugAPI_GetValue_wrap.
    apply (wrap_silent _ _ _ (r_GetValue r ctx start_ end_ matchers)
             (CallGetValue ctx start_ end_ matchers)).
Qed.

Lemma DebugAPI_silent_below_debug_witness :
  entries (snd (promclient.DebugAPI_GetValue (example2.debugged example.healthy)
                  {| ctx_id := 7 |} (timestamp_Time 100) (timestamp_Time 200)
                  [example.job_api] (example2.world_at InfoLevel)))
  = entries (example2.world_at InfoLevel).
Proof.
  refine (proj2 (proj2 (proj2 (proj2 (proj2
            (DebugAPI_silent_below_debug example.healthy "remote")))))
            {| ctx_id := 7 |} (timestamp_Time 100) (timestamp_Time 200)
            [example.job_api] (example2.world_at InfoLevel) _).
  reflexivity.
Defined.

(** X8: at the Debug level each of the six methods of a [DebugAPI], around
    any wrapped API, writes a Debug entry with its message before the
    wrapped call, so that the call runs with that entry in the log, and a
    second Debug entry after the call has returned: the first entry with
    the time the call took added.  Neither entry holds the value, the
    warnings or the error. *)
Theorem DebugAPI_debug_lines_around_call (d : promclient.DebugAPI) :
  each_method
    (fun V value decorated wrapped =>
       debug_lines_around_call (promclient.PrefixMessage d) decorated wrapped) d.
Proof.
  repeat split; intros.
  - rewrite DebugAPI_LabelNames_wrap. apply wrap_debug_around. fresh_now.
  - rewrite DebugAPI_LabelValues_wrap. apply wrap_debug_around. fresh_now.
  - rewrite DebugAPI_Query_wrap. apply wrap_debug_around. fresh_now.
  - rewrite DebugAPI_QueryRange_wrap. apply wrap_debug_around. fresh_now.
  - rewrite DebugAPI_Series_wrap. apply wrap_debug_around. fresh_now.
  - rewrite DebugAPI_GetValue_wrap. apply wrap_debug_around. fresh_now.
Qed.

(** X9: at the Trace level each of the six methods of a [DebugAPI], around
    any wrapped API, writes a Debug entry with its message before the
    wrapped call, so that the call runs with that entry in the log, and a
    Trace entry after the call has returned: the first entry with the time
    the call took and exactly the value, the warnings and the error that
    the call returned, and the method returns, added. *)
Theorem DebugAPI_trace_line_around_call (d : promclient.DebugAPI) :
  each_method
    (fun V value decorated wrapped =>
       trace_line_around_call (promclient.PrefixMessage d) value decorated wrapped) d.
Proof.
  repeat split; intros.
  - rewrite DebugAPI_LabelNames_wrap. apply wrap_trace_around. fresh_now.
  - rewrite DebugAPI_LabelValues_wrap. apply wrap_trace_around. fresh_now.
  - rewrite DebugAPI_Query_wrap. apply wrap_trace_around. fresh_now.
  - rewrite DebugAPI_QueryRange_wrap. apply wrap_trace_around. fresh_now.
  - rewrite DebugAPI_Series_wrap. apply wrap_trace_around. fresh_now.
  - rewrite DebugAPI_GetValue_wrap. apply wrap_trace_around. fresh_now.
Qed.

(** X10: for any wrapped API, when the wrapped call panics, the method of
    [DebugAPI] panics with the same reason and leaves the world as the
    wrapped call left it: the log line after the call is not written. *)
Theorem DebugAPI_panic_skips_last_line (d : promclient.DebugAPI) :
  each_method (fun V value decorated wrapped => panic_skips_last_line decorated wrapped) d.
Proof.
  repeat split; intros.
  - rewrite DebugAPI_LabelNames_wrap. apply wrap_panic.
  - rewrite DebugAPI_LabelValues_wrap. apply wrap_panic.
  - rewrite DebugAPI_Query_wrap. apply wrap_panic.
  - rewrite DebugAPI_QueryRange_wrap. apply wrap_panic.
  - rewrite DebugAPI_Series_wrap. apply wrap_panic.
  - rewrite DebugAPI_GetValue_wrap. apply wrap_panic.
Qed.



Lemma DebugAPI_debug_lines_around_call_witness :
  exists e0 e1,
    promclient.DebugAPI_Series (example2.debugged example.healthy)
      {| ctx_id := 7 |} ["up"] (timestamp_Time 100) (timestamp_Time 200)
      (example2.world_at DebugLevel)
    = (Returned ([example.api_a; example.api_b], ["slow"], None),
       {| wall := wall example.world; reads := 2; level := DebugLevel;
          entries := [e0; e1];
          calls := [CallSeries {| ctx_id := 7 |} ["up"] (timestamp_Time 100)
                      (timestamp_Time 200)] |})
    /\ no_payload e0 /\ e_fields e0 !! "took" = None
    /\ e_level e1 = DebugLevel
    /\ e_fields e1
       = <["took" := FDuration (time_Sub (wall example.world 1)
                                  (wall example.world 0))]> (e_fields e0).
Proof.
  destruct (proj1 (proj2 (proj2 (proj2 (proj2
              (DebugAPI_debug_lines_around_call
                 (example2.debugged example.healthy))))))
              {| ctx_id := 7 |} ["up"] (timestamp_Time 100) (timestamp_Time 200)
              (example2.world_at DebugLevel) eq_refl)
    as (e0 & _ & _ & Hp & Ht & Hafter).
  exists e0.
  exists {| e_level := DebugLevel;
            e_fields :=
              <["took" := FDuration (time_Sub (wall example.world 1)
                                       (wall example.world 0))]> (e_fields e0);
            e_message := "remote" |}.
  split; [|auto].
  exact (Hafter ([example.api_a; example.api_b], ["slow"], None)
           {| wall := wall example.world; reads := 1; level := DebugLevel;
              entries := [e0];
              calls := [CallSeries {| ctx_id := 7 |} ["up"] (timestamp_Time 100)
                          (timestamp_Time 200)] |}
           eq_refl eq_refl).
Defined.

Lemma DebugAPI_trace_line_around_call_witness :
  exists e0 e1,
    promclient.DebugAPI_LabelNames (example2.debugged example.failing)
      {| ctx_id := 7 |} (example2.world_at TraceLevel)
    = (Returned ([], ["first"; "second"], Some example.wrapped),
       {| wall := wall example.world; reads := 2; level := TraceLevel;
          entries := [e0; e1];
          calls := [CallLabelNames {| ctx_id := 7 |}] |})
    /\ e_level e0 = DebugLevel /\ no_payload e0
    /\ e_level e1 = TraceLevel
    /\ e_fields e1
       = <["error" := FError (Some example.wrapped)]>
           (<["warnings" := FStrings ["first"; "second"]]>
              (<["value" := FStrings []]>
                 (<["took" := FDuration (time_Sub (wall example.world 1)
                                           (wall example.world 0))]>
                    (e_fields e0)))).
Proof.
  destruct (proj1 (DebugAPI_trace_line_around_call
                     (example2.debugged example.failing))
              {| ctx_id := 7 |} (example2.world_at TraceLevel) eq_refl)
    as (e0 & Hl & _ & Hp & _ & Hafter).
  exists e0.
  exists {| e_level := TraceLevel;
            e_fields :=
              <["error" := FError (Some example.wrapped)]>
                (<["warnings" := FStrings ["first"; "second"]]>
                   (<["value" := FStrings []]>
                      (<["took" := FDuration (time_Sub (wall example.world 1)
                                                (wall example.world 0))]>
                         (e_fields e0))));
            e_message := "remote" |}.
  split; [|auto].
  exact (Hafter [] ["first"; "second"] (Some example.wrapped)
           {| wall := wall example.world; reads := 1; level := TraceLevel;
              entries := [e0]; calls := [CallLabelNames {| ctx_id := 7 |}] |}
           eq_refl eq_refl).
Defined.

Lemma DebugAPI_panic_skips_last_line_witness :
  exists wb,
    promclient.DebugAPI_GetValue
      {| promclient.DebugAPI_API := example2.panicking;
         promclient.PrefixMessage := "remote" |}
      {| ctx_id := 7 |} (timestamp_Time 100) (timestamp_Time 200)
      [example.job_api] (example2.world_at DebugLevel)
    = (Panicked "client down", wb)
    /\ length (entries wb) = 1%nat.
Proof.
  destruct (proj2 (proj2 (proj2 (proj2 (proj2
              (DebugAPI_panic_skips_last_line
                 {| promclient.DebugAPI_API := example2.panicking;
                    promclient.PrefixMessage := "remote" |})))))
              {| ctx_id := 7 |} (timestamp_Time 100) (timestamp_Time 200)
              [example.job_api] (example2.world_at DebugLevel))
    as (w1 & _ & Hp).
  exists w1. split.
  - apply Hp. reflexivity.
  - specialize (Hp "client down" w1 eq_refl).
    apply (f_equal snd) in Hp. cbn [snd] in Hp. rewrite <- Hp. reflexivity.
Defined.

(** ** The querier behind the decorator *)

Lemma debugged_GetValue (r : Remote) (prefix : string) ctx s e ms (w : World) :
  world_blind r ->
  let d := {| promclient.DebugAPI_API := RemoteClient r;
              promclient.PrefixMessage := prefix |} in
  fst (promclient.DebugAPI_GetValue d ctx s e ms w)
  = Returned (r_GetValue r ctx s e ms w)
  /\ calls (snd (promclient.DebugAPI_GetValue d ctx s e ms w))
     = calls w ++ [CallGetValue ctx s e ms].
Proof.
  intros (_ & _ & _ & _ & _ & Hb) d.
  destruct (DebugAPI_GetValue_transparent d ctx s e ms w) as (w1 & w' & H1 & -> & H2).
  cbn [fst snd]. split.
  - cbn. f_equal. apply Hb.
  - rewrite (only_logged_calls _ _ H2). cbn. now rewrite (only_logged_calls _ _ H1).
Qed.

Lemma debugged_Series (r : Remote) (prefix : string) ctx ms s e (w : World) :
  world_blind r ->
  let d := {| promclient.DebugAPI_API := RemoteClient r;
              promclient.PrefixMessage := prefix |} in
  fst (promclient.DebugAPI_Series d ctx ms s e w)
  = Returned (r_Series r ctx ms s e w)
  /\ calls (snd (promclient.DebugAPI_Series d ctx ms s e w))
     = calls w ++ [CallSeries ctx ms s e].
Proof.
  intros (_ & _ & _ & _ & Hb & _) d.
  destruct (DebugAPI_Series_transparent d ctx ms s e w) as (w1 & w' & H1 & -> & H2).
  cbn [fst snd]. split.
  - cbn. f_equal. apply Hb.
  - rewrite (only_logged_calls _ _ H2). cbn. now rewrite (only_logged_calls _ _ H1).
Qed.

Lemma debugged_LabelValues (r : Remote) (prefix : string) ctx label (w : World) :
  world_blind r ->
  let d := {| promclient.DebugAPI_API := RemoteClient r;
              promclient.PrefixMessage := prefix |} in
  fst (promclient.DebugAPI_LabelValues d ctx label w)
  = Returned (r_LabelValues r ctx label w)
  /\ calls (snd (promclient.DebugAPI_LabelValues d ctx label w))
     = calls w ++ [CallLabelValues ctx label].
Proof.
  intros (_ & Hb & _) d.
  destruct (DebugAPI_LabelValues_transparent d ctx label w) as (w1 & w' & H1 & -> & H2).
  cbn [fst snd]. split.
  - cbn. f_equal. apply Hb.
  - rewrite (only_logged_calls _ _ H2). cbn. now rewrite (only_logged_calls _ _ H1).
Qed.

Lemma debugged_LabelNames (r : Remote) (prefix : string) ctx (w : World) :
  world_blind r ->
  let d := {| promclient.DebugAPI_API := RemoteClient r;
              promclient.PrefixMessage := prefix |} in
  fst (promclient.DebugAPI_LabelNames d ctx w) = Returned (r_LabelNames r ctx w)
  /\ calls (snd (promclient.DebugAPI_LabelNames d ctx w))
     = calls w ++ [CallLabelNames ctx].
Proof.
  intros (Hb & _) d.
  destruct (DebugAPI_LabelNames_transparent d ctx w) as (w1 & w' & H1 & -> & H2).
  cbn [fst snd]. split.
  - cbn. f_equal. apply Hb.
  - rewrite (only_logged_calls _ _ H2). cbn. now rewrite (only_logged_calls _ _ H1).
Qed.

(** X11: when the remote's answers do not depend on the log and the clock,
    putting the client of a querier behind a [DebugAPI] changes neither
    what [Select], [LabelValues] and [LabelNames] return nor the remote
    calls they issue. *)
Theorem querier_behind_DebugAPI
    (r : Remote) (prefix : string) (ctx : Context) (start end_ : time_Time)
    (cfg : option proxyquerier.PromxyConfig) :
  world_blind r ->
  let plain := {| proxyquerier.Ctx := ctx; proxyquerier.Start := start;
                  proxyquerier.End_ := end_;
                  proxyquerier.Client := RemoteClient r;
                  proxyquerier.Cfg := cfg |} in
  let logged := {| proxyquerier.Ctx := ctx; proxyquerier.Start := start;
                   proxyquerier.End_ := end_;
                   proxyquerier.Client :=
                     promclient.DebugAPI_as_API
                       {| promclient.DebugAPI_API := RemoteClient r;
                          promclient.PrefixMessage := prefix |};
                   proxyquerier.Cfg := cfg |} in
  (forall selectParams matchers w,
      fst (proxyquerier.Select logged selectParams matchers w)
      = fst (proxyquerier.Select plain selectParams matchers w)
      /\ calls (snd (proxyquerier.Select logged selectParams matchers w))
         = calls (snd (proxyquerier.Select plain selectParams matchers w)))
  /\ (forall name w,
      fst (proxyquerier.LabelValues logged name w)
      = fst (proxyquerier.LabelValues plain name w)
      /\ calls (snd (proxyquerier.LabelValues logged name w))
         = calls (snd (proxyquerier.LabelValues plain name w)))
  /\ (forall w,
      fst (proxyquerier.LabelNames logged w) = fst (proxyquerier.LabelNames plain w)
      /\ calls (snd (proxyquerier.LabelNames logged w))
         = calls (snd (proxyquerier.LabelNames plain w))).
Proof.
  intros Hb plain logged. split; [|split].
  - intros sp matchers w. destruct sp as [p|].
    + destruct (Select_data_run logged p matchers w) as (wl & -> & Hl).
      destruct (Select_data_run plain p matchers w) as (wp & -> & Hp).
      cbn [fst snd]. revert Hl Hp.
      cbn [proxyquerier.Client proxyquerier.Ctx logged plain
           promclient.DebugAPI_as_API promclient.GetValue].
      destruct (debugged_GetValue r prefix ctx (timestamp_Time (sp_Start p))
                  (timestamp_Time (sp_End p)) matchers (at_call w) Hb) as [-> Hc].
      intros Hl Hp. split; [reflexivity|].
      rewrite (only_logged_calls _ _ Hl), (only_logged_calls _ _ Hp), Hc.
      reflexivity.
    + destruct (promutil.MatcherToString matchers) as [s [e|]] eqn:Hs.
      * destruct (Select_untranslatable_run logged matchers w s e Hs) as (wl & -> & Hl).
        destruct (Select_untranslatable_run plain matchers w s e Hs) as (wp & -> & Hp).
        cbn [fst snd]. split; [reflexivity|].
        now rewrite (only_logged_calls _ _ Hl), (only_logged_calls _ _ Hp).
      * destruct (Select_metadata_run logged matchers w s Hs) as (wl & -> & Hl).
        destruct (Select_metadata_run plain matchers w s Hs) as (wp & -> & Hp).
        cbn [fst snd]. revert Hl Hp.
        cbn [proxyquerier.Client proxyquerier.Ctx proxyquerier.Start
             proxyquerier.End_ logged plain promclient.DebugAPI_as_API
             promclient.Series].
        destruct (debugged_Series r prefix ctx [s] start end_ (at_call w) Hb)
          as [-> Hc].
        intros Hl Hp. split; [reflexivity|].
        rewrite (only_logged_calls _ _ Hl), (only_logged_calls _ _ Hp), Hc.
        reflexivity.
  - intros name w.
    destruct (LabelValues_run logged name w) as (wl & -> & Hl).
    destruct (LabelValues_run plain name w) as (wp & -> & Hp).
    cbn [fst snd]. revert Hl Hp.
    cbn [proxyquerier.Client proxyquerier.Ctx logged plain
         promclient.DebugAPI_as_API promclient.LabelValues].
    destruct (debugged_LabelValues r prefix ctx name (at_call w) Hb) as [-> Hc].
    intros Hl Hp. split; [reflexivity|].
    rewrite (only_logged_calls _ _ Hl), (only_logged_calls _ _ Hp), Hc.
    reflexivity.
  - intros w.
    destruct (LabelNames_run logged w) as (wl & -> & Hl).
    destruct (LabelNames_run plain w) as (wp & -> & Hp).
    cbn [fst snd]. revert Hl Hp.
    cbn [proxyquerier.Client proxyquerier.Ctx logged plain
         promclient.DebugAPI_as_API promclient.LabelNames].
    destruct (debugged_LabelNames r prefix ctx (at_call w) Hb) as [-> Hc].
    intros Hl Hp. split; [reflexivity|].
    rewrite (only_logged_calls _ _ Hl), (only_logged_calls _ _ Hp), Hc.
    reflexivity.
Qed.

Lemma querier_behind_DebugAPI_witness :
  fst (proxyquerier.Select (example2.querier_logged example.healthy)
         (Some example.params) [example.job_api] (example2.world_at TraceLevel))
  = fst (proxyquerier.Select (example.querier example.healthy)
           (Some example.params) [example.job_api] (example2.world_at TraceLevel))
  /\ calls (snd (proxyquerier.Select (example2.querier_logged example.healthy)
                   (Some example.params) [example.job_api]
                   (example2.world_at TraceLevel)))
     = calls (snd (proxyquerier.Select (example.querier example.healthy)
                     (Some example.params) [example.job_api]
                     (example2.world_at TraceLevel))).
Proof.
  refine (proj1 (querier_behind_DebugAPI example.healthy "remote" {| ctx_id := 7 |}
                   (timestamp_Time 1000) (timestamp_Time 2000) None _)
            (Some example.params) [example.job_api] (example2.world_at TraceLevel)).
  repeat split; reflexivity.
Defined.
